(** * PeatlandSpatial: the peat-point grid sampler

    A shallow embedding of [processing/algs/peat_point_processing.py]
    (class [PeatDepthPoints]) and of the reprojection loop of
    [processing/algs/peatland_code_processing.py], with the properties of
    the lattice walk proved over it.

    Python integers are unbounded, so they are [Z].  The host (QGIS)
    supplies geometry, layers and the reprojection algorithm: those are an
    interface here ([GeometryEngine], [Host]) and every general theorem is
    quantified over them. *)

From Stdlib Require Import ZArith QArith String List Bool Lia Sorted.
Import ListNotations.
Local Open Scope Z_scope.

(** ** Python values and control *)

Module Py.

(** The exceptions the modelled code can end with. *)
Inductive Exn : Type :=
| ZeroDivisionError
| AttributeError
| UnboundLocalError
| QgsProcessingException (msg : string).

(** How a computation ends: it returns a value, an exception escapes it,
    or the fuel given to its [while] loops did not suffice. *)
Inductive outcome (A : Type) : Type :=
| Returned (a : A)
| Raised (e : Exn)
| OutOfFuel.
Arguments Returned {A} a.
Arguments Raised {A} e.
Arguments OutOfFuel {A}.

(** [a % b]: the remainder has the sign of the divisor, as [Z.modulo];
    a zero divisor raises. *)
Definition mod_ (a b : Z) : outcome Z :=
  if b =? 0 then Raised ZeroDivisionError else Returned (a mod b).

(** [int(x)] on a finite float: truncation toward zero.  A finite double
    is a rational number, so the float is a [Q] here. *)
Definition int (x : Q) : Z := Z.quot (Qnum x) (Zpos (Qden x)).

(** Object identity.  [a is not b] compares the identities of the two
    objects, not their contents. *)
Definition id := nat.
Definition is_not (a b : id) : bool := negb (Nat.eqb a b).

End Py.
Import Py.

(** ** The lattice start *)

(** [roundup = lambda a, b: a if a % b == 0 else a + b - a % b] *)
Definition roundup (a b : Z) : outcome Z :=
  match mod_ a b with
  | Returned r =>
      if r =? 0 then Returned a
      else match mod_ a b with
           | Returned r' => Returned (a + b - r')
           | Raised e => Raised e
           | OutOfFuel => OutOfFuel
           end
  | Raised e => Raised e
  | OutOfFuel => OutOfFuel
  end.

(** ** The host's geometry *)

(** [QgsRectangle]: the four bounds are floats. *)
Record QgsRectangle : Type := mkRectangle {
  xMinimum : Q;
  yMinimum : Q;
  xMaximum : Q;
  yMaximum : Q
}.

(** [QgsPointXY(x, y)] at the integer coordinates of a lattice candidate
    (the conversion of [x] and [y] to floats is exact below 2^53, far above
    any coordinate of the national grid). *)
Record QgsPointXY : Type := mkPointXY { px : Z; py : Z }.

(** What [processAlgorithm] asks of a [QgsGeometry]: [geom.boundingBox()]
    and [point.within(geom)].  [touches] is the host's boundary predicate;
    the code never calls it, it is here to say what [within] excludes: a
    point that is within a geometry does not touch its boundary. *)
Class GeometryEngine (QgsGeometry : Type) : Type := {
  boundingBox : QgsGeometry -> QgsRectangle;
  within : QgsPointXY -> QgsGeometry -> bool;
  touches : QgsPointXY -> QgsGeometry -> bool;
  within_not_touches :
    forall p g, within p g = true -> touches p g = false
}.

(** A vector layer: the EPSG code of its reference system and the
    geometries of its features, in the order [getFeatures()] yields them. *)
Record QgsVectorLayer (QgsGeometry : Type) : Type := mkLayer {
  crs_authid : Z;
  getFeatures : list QgsGeometry
}.
Arguments mkLayer {QgsGeometry} _ _.
Arguments crs_authid {QgsGeometry} _.
Arguments getFeatures {QgsGeometry} _.

(** A [QgsCoordinateReferenceSystem] object as Python sees it: an identity
    and the EPSG code it holds. *)
Record QgsCoordinateReferenceSystem : Type := mkCrs {
  py_id : Py.id;
  authid : Z
}.

(** ** The output record *)

(** A feature of the peat layer as it is added to the sink: its point
    geometry and the four attributes the loop sets ([spacing_attr] is the
    attribute named "spacing").  The fields [date], [peat_depth],
    [main_con], [sub_con], [notes] and [photo] are never set. *)
Record SamplePoint : Type := mkSamplePoint {
  geometry : QgsPointXY;
  record_id : Z;
  easting : Z;
  northing : Z;
  spacing_attr : Z
}.

(** ** State of a run *)

(** [heap] is the next free object identity, [calls] the algorithms run
    through [processing.run] (oldest first), [sink] the features added to
    the output sink (oldest first) and [count] the local variable of that
    name. *)
Record State : Type := mkState {
  heap : Py.id;
  calls : list string;
  sink : list SamplePoint;
  count : Z
}.

(** The state in which a run starts: [h] objects exist, nothing was run,
    the sink is empty. *)
Definition init (h : Py.id) : State := mkState h [] [] 0.

Definition M (A : Type) : Type := State -> State * outcome A.

Definition ret {A} (a : A) : M A := fun st => (st, Returned a).

Definition raise {A} (e : Exn) : M A := fun st => (st, Raised e).

Definition out_of_fuel {A} : M A := fun st => (st, OutOfFuel).

Definition bind {A B} (m : M A) (k : A -> M B) : M B :=
  fun st =>
    match m st with
    | (st', Returned a) => k a st'
    | (st', Raised e) => (st', Raised e)
    | (st', OutOfFuel) => (st', OutOfFuel)
    end.

Notation "x <- m ;; k" := (bind m (fun x => k))
  (at level 61, m at next level, right associativity).
Notation "m ;; k" := (bind m (fun _ => k))
  (at level 61, right associativity).

Definition lift {A} (o : outcome A) : M A := fun st => (st, o).

Definition get_count : M Z := fun st => (st, Returned (count st)).

Definition set_count (c : Z) : M unit :=
  fun st => (mkState (heap st) (calls st) (sink st) c, Returned tt).

(** [sink.addFeature(feat, QgsFeatureSink.FastInsert)] *)
Definition addFeature (feat : SamplePoint) : M unit :=
  fun st => (mkState (heap st) (calls st) (sink st ++ [feat]) (count st),
             Returned tt).

(** A fresh Python object. *)
Definition new_object : M Py.id :=
  fun st => (mkState (S (heap st)) (calls st) (sink st) (count st),
             Returned (heap st)).

(** [processing.run(alg, ...)] is recorded. *)
Definition log_call (alg : string) : M unit :=
  fun st => (mkState (heap st) (calls st ++ [alg]) (sink st) (count st),
             Returned tt).

(** ** The lattice walk *)

Section Sampler.

Context {QgsGeometry : Type} `{GeometryEngine QgsGeometry}.

(** Lines 275-290: the body of the inner loop at candidate [(x, y)]. *)
Definition candidate (geom : QgsGeometry) (x y : Z) : M unit :=
  let point := mkPointXY x y in
  if within point geom then
    c <- get_count ;;
    let feat :=
      mkSamplePoint point c x y
        (if (x mod 100 =? 0) && (y mod 100 =? 0) then 100 else 50) in
    addFeature feat ;;
    set_count (c + 1)
  else ret tt.

(** [while x < end_x: ...; x += spacing] *)
Fixpoint while_x (fuel : nat) (geom : QgsGeometry)
    (spacing end_x y x : Z) : M unit :=
  match fuel with
  | O => out_of_fuel
  | S fuel' =>
      if x <? end_x then
        candidate geom x y ;;
        while_x fuel' geom spacing end_x y (x + spacing)
      else ret tt
  end.

(** [while y < end_y: x = start_x; ...; y += spacing] *)
Fixpoint while_y (fuel : nat) (geom : QgsGeometry)
    (spacing start_x end_x end_y y : Z) : M unit :=
  match fuel with
  | O => out_of_fuel
  | S fuel' =>
      if y <? end_y then
        while_x fuel' geom spacing end_x y start_x ;;
        while_y fuel' geom spacing start_x end_x end_y (y + spacing)
      else ret tt
  end.

(** Lines 251-294: one feature.  [with edit(peat_layer)] opens and
    commits an edit session on the in-memory peat layer, to which nothing
    is written: it changes neither the sink nor the counter. *)
Definition process_feature (fuel : nat) (spacing : Z)
    (geom : QgsGeometry) : M unit :=
  let bbox := boundingBox geom in
  let x_max := int (xMaximum bbox) in
  let y_max := int (yMaximum bbox) in
  let x_min := int (xMinimum bbox) in
  let y_min := int (yMinimum bbox) in
  start_x <- lift (roundup x_min spacing) ;;
  start_y <- lift (roundup y_min spacing) ;;
  let end_x := x_max in
  let end_y := y_max in
  while_y fuel geom spacing start_x end_x end_y start_y.

(** Lines 245-294: [for current, feature in enumerate(features)].  The
    result is the last value bound to [current], if any; [isCanceled i]
    is what [feedback.isCanceled()] answers at iteration [i]. *)
Fixpoint for_features (fuel : nat) (isCanceled : nat -> bool)
    (spacing : Z) (features : list QgsGeometry)
    (current : nat) (last : option nat) : M (option nat) :=
  match features with
  | [] => ret last
  | feature :: rest =>
      if isCanceled current then ret (Some current)
      else
        process_feature fuel spacing feature ;;
        for_features fuel isCanceled spacing rest (S current) (Some current)
  end.

End Sampler.

(** ** The algorithm *)

(** What the host contributes to a run of [PeatDepthPoints]: the
    "qgis:reprojectlayer" algorithm (to EPSG:27700, into a memory layer; it
    raises when it fails), the answers of [feedback.isCanceled()], and the
    texts of [invalidSourceError] and [invalidSinkError]. *)
Record Host (QgsGeometry : Type) : Type := mkHost {
  reprojectlayer :
    QgsVectorLayer QgsGeometry -> Exn + QgsVectorLayer QgsGeometry;
  isCanceled : nat -> bool;
  invalidSourceError : string;
  invalidSinkError : string
}.
Arguments mkHost {QgsGeometry} _ _ _ _.
Arguments reprojectlayer {QgsGeometry} _ _.
Arguments isCanceled {QgsGeometry} _ _.
Arguments invalidSourceError {QgsGeometry} _.
Arguments invalidSinkError {QgsGeometry} _.

(** The parameters as the host resolves them: [INPUT] is what
    [parameterAsVectorLayer] returns ([None] when the source cannot be
    evaluated), [GRID50] what [parameterAsBool] returns, and [OUTPUT] the
    [dest_id] of the sink of [parameterAsSink], [None] when that sink is
    [None]. *)
Record Parameters (QgsGeometry : Type) : Type := mkParameters {
  INPUT : option (QgsVectorLayer QgsGeometry);
  GRID50 : bool;
  OUTPUT : option string
}.
Arguments mkParameters {QgsGeometry} _ _ _.
Arguments INPUT {QgsGeometry} _.
Arguments GRID50 {QgsGeometry} _.
Arguments OUTPUT {QgsGeometry} _.

(** [layer.crs()], [source.sourceCrs()] and
    [QgsCoordinateReferenceSystem(code)] each hand Python a new object. *)
Definition crs_object (code : Z) : M QgsCoordinateReferenceSystem :=
  i <- new_object ;;
  ret (mkCrs i code).

(** [generate_peat_layer]: a memory point layer whose reference system is
    set, through an object got from [peat_layer.crs()], to id 27700.  The
    result is the code of the layer's reference system. *)
Definition generate_peat_layer : M Z :=
  crs <- crs_object 0 ;;
  let crs := mkCrs (py_id crs) 27700 in
  ret (authid crs).

Section Algorithm.

Context {QgsGeometry : Type} `{GeometryEngine QgsGeometry}.

(** [processing.run("qgis:reprojectlayer", {...})["OUTPUT"]] *)
Definition run_reprojectlayer (host : Host QgsGeometry)
    (layer : QgsVectorLayer QgsGeometry) : M (QgsVectorLayer QgsGeometry) :=
  log_call "qgis:reprojectlayer" ;;
  match reprojectlayer host layer with
  | inl e => raise e
  | inr reproj => ret reproj
  end.

(** [PeatDepthPoints.processAlgorithm] *)
Definition processAlgorithm (fuel : nat) (host : Host QgsGeometry)
    (parameters : Parameters QgsGeometry) : M string :=
  let source := INPUT parameters in
  let grid50 := GRID50 parameters in
  peat_code <- generate_peat_layer ;;
  peat_crs <- crs_object peat_code ;;
  match source with
  | None => raise AttributeError (* [source.sourceCrs()] on [None] *)
  | Some layer =>
      source_crs <- crs_object (crs_authid layer) ;;
      source <-
        (if is_not (py_id source_crs) (py_id peat_crs) then
           reproj <- run_reprojectlayer host layer ;;
           ret (Some reproj)
         else ret (Some layer)) ;;
      let spacing := if grid50 then 50 else 100 in
      match source with
      | None =>
          raise (QgsProcessingException (invalidSourceError host))
      | Some source =>
          match OUTPUT parameters with
          | None =>
              raise (QgsProcessingException (invalidSinkError host))
          | Some dest_id =>
              let features := getFeatures source in
              set_count 1 ;;
              current <-
                for_features fuel (isCanceled host) spacing features
                  O None ;;
              (* [feedback.setProgress(int(current * total))], after
                 the loop, reads [current] *)
              match current with
              | None => raise UnboundLocalError
              | Some _ => ret dest_id
              end
          end
      end
  end.

(** [PeatlandCodeAssessmentBase.processAlgorithm], lines 177-186: every
    non-peatland layer whose reference system [is not] a new
    [QgsCoordinateReferenceSystem(27700)] object is replaced in the list
    by its reprojection. *)
Fixpoint reproject_non_peatland (host : Host QgsGeometry)
    (non_peatland_layers : list (QgsVectorLayer QgsGeometry))
    : M (list (QgsVectorLayer QgsGeometry)) :=
  match non_peatland_layers with
  | [] => ret []
  | layer :: rest =>
      layer_crs <- crs_object (crs_authid layer) ;;
      bng <- crs_object 27700 ;;
      layer' <-
        (if is_not (py_id layer_crs) (py_id bng)
         then run_reprojectlayer host layer
         else ret layer) ;;
      rest' <- reproject_non_peatland host rest ;;
      ret (layer' :: rest')
  end.

End Algorithm.

(** ** A concrete geometry: axis-aligned rectangles *)

(** The rectangle with corners [(x0, y0)] and [(x1, y1)], as a polygon. *)
Record Box : Type := mkBox { x0 : Z; y0 : Z; x1 : Z; y1 : Z }.

Definition box_within (p : QgsPointXY) (b : Box) : bool :=
  (x0 b <? px p) && (px p <? x1 b) && (y0 b <? py p) && (py p <? y1 b).

Definition box_touches (p : QgsPointXY) (b : Box) : bool :=
  (x0 b <=? px p) && (px p <=? x1 b) && (y0 b <=? py p) && (py p <=? y1 b)
  && negb (box_within p b).

#[export] Program Instance BoxEngine : GeometryEngine Box := {
  boundingBox b :=
    mkRectangle (inject_Z (x0 b)) (inject_Z (y0 b))
                (inject_Z (x1 b)) (inject_Z (y1 b));
  within := box_within;
  touches := box_touches
}.
Next Obligation.
  unfold box_touches. rewrite H. simpl. apply andb_false_r.
Qed.

Definition square150 : Box := mkBox 0 0 150 150.

(** A host that reprojects a layer by copying it into EPSG:27700 and is
    never cancelled. *)
Definition copy_host : Host Box :=
  mkHost (fun layer => inr (mkLayer 27700 (getFeatures layer)))
         (fun _ => false) "Could not load source layer for INPUT"
         "Could not create destination layer for OUTPUT".

(** ** Inputs of the worked runs *)

(** A polygon whose bounding box is the segment from (10,0) to (10,200). *)
Definition segment : Box := mkBox 10 0 10 200.

(** A host whose reprojection algorithm fails. *)
Definition failing_host : Host Box :=
  mkHost (fun _ => inl (QgsProcessingException "reprojection failed"))
         (fun _ => false) "Could not load source layer for INPUT"
         "Could not create destination layer for OUTPUT".

(** The state in which the features loop starts: the sink is empty and
    [count = 1]. *)
Definition loop_start (h : Py.id) : State := mkState h [] [] 1.

Definition coordinates_and_tag (p : SamplePoint) : Z * Z * Z :=
  (easting p, northing p, spacing_attr p).

(** The four features the walk over [square150] emits at spacing 50. *)
Definition square150_points : list SamplePoint :=
  [ mkSamplePoint (mkPointXY 50 50) 1 50 50 50;
    mkSamplePoint (mkPointXY 100 50) 2 100 50 50;
    mkSamplePoint (mkPointXY 50 100) 3 50 100 50;
    mkSamplePoint (mkPointXY 100 100) 4 100 100 100 ].

(** * Vocabulary of the properties *)

(** [numbered c l]: the record ids of [l] are [c], [c + 1], [c + 2], ... *)
Fixpoint numbered (c : Z) (l : list SamplePoint) : Prop :=
  match l with
  | [] => True
  | p :: l' => record_id p = c /\ numbered (c + 1) l'
  end.

(** [extends Q st st']: from [st] to [st'] the sink only gained features at
    its end, each satisfying [Q] and numbered from the counter of [st], the
    counter advanced by their number, and no host algorithm was run. *)
Definition extends (Q : SamplePoint -> Prop) (st st' : State) : Prop :=
  calls st' = calls st
  /\ exists new,
       sink st' = sink st ++ new
       /\ count st' = count st + Z.of_nat (length new)
       /\ numbered (count st) new
       /\ Forall Q new.

Definition grows (Q : SamplePoint -> Prop) {A} (m : M A) : Prop :=
  forall st, extends Q st (fst (m st)).

(** The state after the reprojection stage and [count = 1]. *)
Definition sampling_state (st : State) : State :=
  mkState (S (S (S (heap st)))) (calls st ++ ["qgis:reprojectlayer"%string])
          (sink st) 1.

Section Vocabulary.

Context {QgsGeometry : Type} `{GeometryEngine QgsGeometry}.

(** The truncated bounds of lines 253-256. *)
Definition x_max_of (g : QgsGeometry) : Z := int (xMaximum (boundingBox g)).
Definition y_max_of (g : QgsGeometry) : Z := int (yMaximum (boundingBox g)).
Definition x_min_of (g : QgsGeometry) : Z := int (xMinimum (boundingBox g)).
Definition y_min_of (g : QgsGeometry) : Z := int (yMinimum (boundingBox g)).

(** What holds of a feature the walk over [g] adds to the sink. *)
Definition sampled (s : Z) (g : QgsGeometry) (p : SamplePoint) : Prop :=
  geometry p = mkPointXY (easting p) (northing p)
  /\ within (geometry p) g = true
  /\ easting p mod s = 0
  /\ northing p mod s = 0
  /\ x_min_of g <= easting p < x_max_of g
  /\ y_min_of g <= northing p < y_max_of g
  /\ spacing_attr p
     = (if (easting p mod 100 =? 0) && (northing p mod 100 =? 0)
        then 100 else 50).

(** Fuel that suffices for the walk over [g]. *)
Definition fuel_for (g : QgsGeometry) : nat :=
  Z.to_nat (y_max_of g - y_min_of g) + Z.to_nat (x_max_of g - x_min_of g) + 2.

(** A feature of the sink was sampled from one of [features]. *)
Definition sampled_from_one (s : Z) (features : list QgsGeometry)
    (p : SamplePoint) : Prop :=
  exists g, In g features /\ sampled s g p.

End Vocabulary.

(** * The walk as a list *)

(** [range(start, stop, step)] for a positive [step]: [start],
    [start + step], [start + 2 * step], ... as long as they are below
    [stop]. *)
Fixpoint range_from (n : nat) (start stop step : Z) : list Z :=
  match n with
  | O => []
  | S n' =>
      if start <? stop then start :: range_from n' (start + step) stop step
      else []
  end.

Definition range (start stop step : Z) : list Z :=
  range_from (Z.to_nat (stop - start)) start stop step.

(** The least multiple of [s] that is not below [v], by division. *)
Definition first_multiple (v s : Z) : Z := s * ((v + s - 1) / s).

(** The features [pts] yield when they are emitted in order from counter
    [c]. *)
Fixpoint emit_all (c : Z) (pts : list (Z * Z)) : list SamplePoint :=
  match pts with
  | [] => []
  | (x, y) :: rest =>
      mkSamplePoint (mkPointXY x y) c x y
        (if (x mod 100 =? 0) && (y mod 100 =? 0) then 100 else 50)
      :: emit_all (c + 1) rest
  end.

(** The state [st] after the points [pts] were emitted. *)
Definition push (st : State) (pts : list (Z * Z)) : State :=
  mkState (heap st) (calls st) (sink st ++ emit_all (count st) pts)
          (count st + Z.of_nat (length pts)).

Definition coordinates (p : SamplePoint) : Z * Z := (easting p, northing p).

(** Row-major order of lattice points: by northing, then by easting. *)
Definition row_major (a b : Z * Z) : Prop :=
  snd a < snd b \/ (snd a = snd b /\ fst a < fst b).

Section LatticeVocabulary.

Context {QgsGeometry : Type} `{GeometryEngine QgsGeometry}.

(** The candidates of the walk over [g] at spacing [s]: for each [y] of the
    rows from the first multiple of [s] at or above the truncated
    [yMinimum] up to the truncated [yMaximum], each [x] of the columns from
    the first multiple at or above the truncated [xMinimum] up to the
    truncated [xMaximum]. *)
Definition candidates (s : Z) (g : QgsGeometry) : list (Z * Z) :=
  flat_map
    (fun y =>
       map (fun x => (x, y))
           (range (first_multiple (x_min_of g) s) (x_max_of g) s))
    (range (first_multiple (y_min_of g) s) (y_max_of g) s).

Definition inside (g : QgsGeometry) (c : Z * Z) : bool :=
  within (mkPointXY (fst c) (snd c)) g.

(** The candidates that are within [g], in the order of the walk. *)
Definition inside_candidates (s : Z) (g : QgsGeometry) : list (Z * Z) :=
  filter (inside g) (candidates s g).

(** The features the loop reaches before [feedback.isCanceled()] first
    answers true. *)
Fixpoint reached (canceled : nat -> bool) (features : list QgsGeometry)
    (current : nat) : list QgsGeometry :=
  match features with
  | [] => []
  | feature :: rest =>
      if canceled current then []
      else feature :: reached canceled rest (S current)
  end.

End LatticeVocabulary.

(** * The rest of the two algorithms *)

(** [IndexError] and [KeyError], the two [LookupError]s of Python.  [Exn]
    does not list them: where one of them ends a computation, the
    computation returns it as [inl]. *)
Inductive LookupError : Type :=
| IndexError
| KeyError (key : string).

(** [l[i]] *)
Definition getitem {A} (l : list A) (i : nat) : LookupError + A :=
  match nth_error l i with
  | Some a => inr a
  | None => inl IndexError
  end.

(** ** The peat layer's fields and the feature built over them *)

Inductive QVariantType : Type := QVariantInt | QVariantDate | QVariantString.

(** The fields [generate_peat_layer] adds, in order. *)
Definition peat_fields : list (string * QVariantType) :=
  [ ("record_id"%string, QVariantInt);
    ("easting"%string, QVariantInt);
    ("northing"%string, QVariantInt);
    ("date"%string, QVariantDate);
    ("spacing"%string, QVariantInt);
    ("peat_depth"%string, QVariantInt);
    ("main_con"%string, QVariantString);
    ("sub_con"%string, QVariantString);
    ("notes"%string, QVariantString);
    ("photo"%string, QVariantString) ].

(** A [QgsFeature]: its fields, one attribute per field ([None] is NULL;
    the loop only sets integers) and its geometry, if set. *)
Record QgsFeature : Type := mkFeature {
  fields : list (string * QVariantType);
  attributes : list (option Z);
  feature_geometry : option QgsPointXY
}.

(** [QgsFeature(fields)]: every attribute NULL, no geometry. *)
Definition new_feature (fs : list (string * QVariantType)) : QgsFeature :=
  mkFeature fs (repeat None (length fs)) None.

(** The index of the field called [name], if there is one. *)
Fixpoint lookupField (name : string) (fs : list (string * QVariantType))
    : option nat :=
  match fs with
  | [] => None
  | (n, _) :: rest =>
      if String.eqb n name then Some O
      else option_map S (lookupField name rest)
  end.

Fixpoint set_nth {A} (i : nat) (v : A) (l : list A) : list A :=
  match l, i with
  | [], _ => []
  | _ :: rest, O => v :: rest
  | a :: rest, S i' => a :: set_nth i' v rest
  end.

(** [feat.setAttribute(name, value)]: a name that is no field of the
    feature is a [KeyError]. *)
Definition setAttribute (name : string) (value : Z) (feat : QgsFeature)
    : LookupError + QgsFeature :=
  match lookupField name (fields feat) with
  | None => inl (KeyError name)
  | Some i =>
      inr (mkFeature (fields feat) (set_nth i (Some value) (attributes feat))
             (feature_geometry feat))
  end.

(** [feat.setGeometry(point)] *)
Definition setGeometry (point : QgsPointXY) (feat : QgsFeature)
    : QgsFeature :=
  mkFeature (fields feat) (attributes feat) (Some point).

(** [feat[name]]: the attribute of the field called [name]. *)
Definition attribute (name : string) (feat : QgsFeature)
    : LookupError + option Z :=
  match lookupField name (fields feat) with
  | None => inl (KeyError name)
  | Some i =>
      match nth_error (attributes feat) i with
      | Some v => inr v
      | None => inl (KeyError name)
      end
  end.

Definition and_then {A B} (r : LookupError + A) (k : A -> LookupError + B)
    : LookupError + B :=
  match r with
  | inl e => inl e
  | inr a => k a
  end.

(** Lines 279-287: the feature of candidate [(x, y)] when the counter is
    [count], built attribute by attribute over the fields of the peat
    layer. *)
Definition make_feat (x y count : Z) : LookupError + QgsFeature :=
  let point := mkPointXY x y in
  let feat := new_feature peat_fields in
  and_then
    (if (x mod 100 =? 0) && (y mod 100 =? 0)
     then setAttribute "spacing" 100 feat
     else setAttribute "spacing" 50 feat)
    (fun feat =>
       let feat := setGeometry point feat in
       and_then (setAttribute "record_id" count feat) (fun feat =>
       and_then (setAttribute "easting" x feat) (fun feat =>
       setAttribute "northing" y feat))).

(** ** PeatlandCodeAssessmentBase *)

Module PeatlandCodeAssessmentBase.

(** The host of this algorithm: the host of [PeatDepthPoints], whose
    reprojection algorithm it shares, and the algorithms "native:buffer"
    (30 units, dissolved, into a memory layer) and
    "qgis:mergevectorlayers"; each raises when it fails. *)
Record HostAlgorithms (QgsGeometry : Type) : Type := mkHostAlgorithms {
  peat_host : Host QgsGeometry;
  buffer : QgsVectorLayer QgsGeometry -> Exn + QgsVectorLayer QgsGeometry;
  mergevectorlayers :
    list (QgsVectorLayer QgsGeometry) -> Exn + QgsVectorLayer QgsGeometry
}.
Arguments mkHostAlgorithms {QgsGeometry} _ _ _.
Arguments peat_host {QgsGeometry} _.
Arguments buffer {QgsGeometry} _ _.
Arguments mergevectorlayers {QgsGeometry} _ _.

(** The parameters as the host resolves them: [INPUT] is what
    [parameterAsSource] returns ([None] when the source cannot be
    evaluated), [NON_PEATLAND] what [parameterAsLayerList] returns,
    [WATER_COURSE] what [parameterAsVectorLayer] returns ([None] when the
    optional layer is not given) and [OUTPUT] what [parameterAsSink] does:
    it raises, or returns the [dest_id] of a sink, [None] when the sink is
    [None]. *)
Record Parameters (QgsGeometry : Type) : Type := mkParameters {
  INPUT : option (QgsVectorLayer QgsGeometry);
  NON_PEATLAND : list (QgsVectorLayer QgsGeometry);
  WATER_COURSE : option (QgsVectorLayer QgsGeometry);
  OUTPUT : Exn + option string
}.
Arguments mkParameters {QgsGeometry} _ _ _ _.
Arguments INPUT {QgsGeometry} _.
Arguments NON_PEATLAND {QgsGeometry} _.
Arguments WATER_COURSE {QgsGeometry} _.
Arguments OUTPUT {QgsGeometry} _.

Section Algorithm.

Context {QgsGeometry : Type} `{GeometryEngine QgsGeometry}.

(** [processing.run("native:buffer", {...})["OUTPUT"]] *)
Definition run_buffer (host : HostAlgorithms QgsGeometry)
    (layer : QgsVectorLayer QgsGeometry) : M (QgsVectorLayer QgsGeometry) :=
  log_call "native:buffer" ;;
  match buffer host layer with
  | inl e => raise e
  | inr buffered => ret buffered
  end.

(** [processing.run("qgis:mergevectorlayers", {...})["OUTPUT"]] *)
Definition run_mergevectorlayers (host : HostAlgorithms QgsGeometry)
    (layers : list (QgsVectorLayer QgsGeometry))
    : M (QgsVectorLayer QgsGeometry) :=
  log_call "qgis:mergevectorlayers" ;;
  match mergevectorlayers host layers with
  | inl e => raise e
  | inr merged => ret merged
  end.

(** Lines 188-198: the water course, when one is given, is buffered. *)
Definition buffer_water_course (host : HostAlgorithms QgsGeometry)
    (water_course : option (QgsVectorLayer QgsGeometry))
    : M (option (QgsVectorLayer QgsGeometry)) :=
  match water_course with
  | Some water =>
      water_buffer <- run_buffer host water ;;
      ret (Some water_buffer)
  | None => ret None
  end.

(** Lines 200-209: [merged] is the merge of the layers when there is more
    than one, and the first layer otherwise. *)
Definition merge_non_peatland (host : HostAlgorithms QgsGeometry)
    (non_peatland_layers : list (QgsVectorLayer QgsGeometry))
    : M (LookupError + QgsVectorLayer QgsGeometry) :=
  if (1 <? length non_peatland_layers)%nat then
    merged <- run_mergevectorlayers host non_peatland_layers ;;
    ret (inr merged)
  else ret (getitem non_peatland_layers 0).

(** [PeatlandCodeAssessmentBase.processAlgorithm], lines 153-209; what
    follows line 209 is a string literal, so the function returns [None]
    there. *)
Definition processAlgorithm (host : HostAlgorithms QgsGeometry)
    (parameters : Parameters QgsGeometry) : M (LookupError + unit) :=
  let source := INPUT parameters in
  let non_peatland_layers := NON_PEATLAND parameters in
  let water_course := WATER_COURSE parameters in
  match source with
  | None => raise AttributeError (* [source.wkbType()] on [None] *)
  | Some layer =>
      source_crs <- crs_object (crs_authid layer) ;;
      dest_id <-
        match OUTPUT parameters with
        | inl e => raise e
        | inr dest_id => ret dest_id
        end ;;
      match source with
      | None =>
          raise (QgsProcessingException
                   (invalidSourceError (peat_host host)))
      | Some _ =>
          non_peatland_layers <-
            reproject_non_peatland (peat_host host) non_peatland_layers ;;
          water_buffer <- buffer_water_course host water_course ;;
          merged <- merge_non_peatland host non_peatland_layers ;;
          match merged with
          | inl e => ret (inl e)
          | inr _ => ret (inr tt)
          end
      end
  end.

End Algorithm.

End PeatlandCodeAssessmentBase.


(** The state after [n] layers went through the reprojection loop: two
    objects were made and the algorithm was run once for each. *)
Definition after_reprojections (n : nat) (st : State) : State :=
  mkState (n + n + heap st)%nat (calls st ++ repeat "qgis:reprojectlayer"%string n)
          (sink st) (count st).

(** [reprojected host layers reprojs]: the reprojection algorithm succeeds
    on each of [layers] and returns the layer at the same place in
    [reprojs]. *)
Definition reprojected {QgsGeometry : Type} (host : Host QgsGeometry)
    (layers reprojs : list (QgsVectorLayer QgsGeometry)) : Prop :=
  Forall2 (fun layer reproj => reprojectlayer host layer = inr reproj)
          layers reprojs.

(** A host that is cancelled at the poll of the second feature. *)
Definition cancelling_host : Host Box :=
  mkHost (fun layer => inr (mkLayer 27700 (getFeatures layer)))
         (fun i => Nat.eqb i 1) "Could not load source layer for INPUT"
         "Could not create destination layer for OUTPUT".

(** A host whose reprojection algorithm fails on a layer without
    features. *)
Definition strict_host : Host Box :=
  mkHost (fun layer =>
            match getFeatures layer with
            | [] => inl (QgsProcessingException "no features")
            | _ => inr (mkLayer 27700 (getFeatures layer))
            end)
         (fun _ => false) "Could not load source layer for INPUT"
         "Could not create destination layer for OUTPUT".

(** * Properties *)

(** ** The lattice start *)

Lemma roundup_pos (a b : Z) :
  b <> 0 ->
  roundup a b = Returned (if a mod b =? 0 then a else a + b - a mod b).
Proof.
  intros Hb. unfold roundup, mod_.
  destruct (Z.eqb_spec b 0) as [E | _]; [contradiction |].
  destruct (a mod b =? 0); reflexivity.
Qed.

Lemma roundup_multiple (a b r : Z) :
  roundup a b = Returned r -> r mod b = 0.
Proof.
  unfold roundup, mod_.
  destruct (Z.eqb_spec b 0) as [E | Hb]; [discriminate |].
  destruct (Z.eqb_spec (a mod b) 0) as [E | Hr]; intros H; inversion H; subst.
  - assumption.
  - replace (a + b - a mod b) with (b * (a / b) + a mod b - a mod b + 1 * b)
      by (rewrite <- Z.div_mod by assumption; ring).
    rewrite Z.mod_add by assumption.
    replace (b * (a / b) + a mod b - a mod b) with ((a / b) * b) by ring.
    apply Z.mod_mul; assumption.
Qed.

Lemma roundup_ge (a b r : Z) :
  0 < b -> roundup a b = Returned r -> a <= r.
Proof.
  intros Hb. rewrite roundup_pos by lia.
  pose proof (Z.mod_pos_bound a b Hb) as Hbd.
  destruct (a mod b =? 0); intros H; inversion H; lia.
Qed.

(** C4: for a strictly positive spacing, [roundup] returns the value when
    it is a multiple of the spacing and [value + spacing - value mod spacing]
    otherwise, and that result is the least multiple of the spacing that is
    not below the value. *)
Theorem roundup_least_multiple (value spacing : Z) :
  0 < spacing ->
  roundup value spacing
    = Returned (if value mod spacing =? 0 then value
                else value + spacing - value mod spacing)
  /\ exists r,
       roundup value spacing = Returned r
       /\ (spacing | r)
       /\ value <= r
       /\ forall m, (spacing | m) -> value <= m -> r <= m.
Proof.
  intros Hs. split; [apply roundup_pos; lia |].
  destruct (roundup value spacing) as [r | e | ] eqn:E;
    try (rewrite roundup_pos in E by lia; discriminate).
  exists r. split; [reflexivity |].
  pose proof (roundup_multiple _ _ _ E) as Hm.
  pose proof (roundup_ge _ _ _ Hs E) as Hge.
  repeat split; try assumption.
  - apply Z.mod_divide; [lia | assumption].
  - intros m [k ->] Hle.
    rewrite roundup_pos in E by lia.
    pose proof (Z.mod_pos_bound value spacing Hs) as Hb.
    pose proof (Z.div_mod value spacing ltac:(lia)) as Hd.
    destruct (Z.eqb_spec (value mod spacing) 0) as [E0 | E0];
      inversion E; subst r; [lia |].
    assert (value / spacing < k) by nia.
    nia.
Qed.

Lemma roundup_least_multiple_witness :
  0 < 50
  /\ roundup 1234 50 = Returned 1250
  /\ exists r, roundup 1234 50 = Returned r /\ (50 | r) /\ 1234 <= r
       /\ forall m, (50 | m) -> 1234 <= m -> r <= m.
Proof.
  split; [lia |].
  exact (roundup_least_multiple 1234 50 ltac:(lia)).
Defined.

(** ** Truncation *)

Lemma int_inject_Z (z : Z) : int (inject_Z z) = z.
Proof. unfold int. simpl. apply Z.quot_1_r. Qed.

(** [int] does not depend on how the float's value is written as a
    fraction. *)
Lemma int_Qeq (a b : Q) : (a == b)%Q -> int a = int b.
Proof.
  unfold Qeq, int. destruct a as [n d], b as [n' d']. simpl. intros E.
  rewrite <- (Z.quot_mul_cancel_r n (Zpos d) (Zpos d')) by lia.
  rewrite E.
  rewrite (Z.mul_comm (Zpos d) (Zpos d')).
  apply Z.quot_mul_cancel_r; lia.
Qed.

(** ** Sequencing *)

Lemma bind_returned {A B} (m : M A) (k : A -> M B) (st : State) (a : A) :
  snd (m st) = Returned a -> bind m k st = k a (fst (m st)).
Proof.
  unfold bind. destruct (m st) as [st' o]. simpl. intros ->. reflexivity.
Qed.

Lemma bind_cases {A B} (m : M A) (k : A -> M B) (st : State) :
  (exists a, snd (m st) = Returned a /\ bind m k st = k a (fst (m st)))
  \/ ((forall a, snd (m st) <> Returned a)
      /\ fst (bind m k st) = fst (m st)
      /\ ((exists e, snd (m st) = Raised e /\ snd (bind m k st) = Raised e)
          \/ (snd (m st) = OutOfFuel /\ snd (bind m k st) = OutOfFuel))).
Proof.
  unfold bind. destruct (m st) as [st' [a | e | ]]; simpl.
  - left. exists a. split; reflexivity.
  - right. split; [discriminate |]. split; [reflexivity |].
    left. exists e. split; reflexivity.
  - right. split; [discriminate |]. split; [reflexivity |].
    right. split; reflexivity.
Qed.

(** ** Numbering and growth of the sink *)

Lemma numbered_app (c : Z) (l1 l2 : list SamplePoint) :
  numbered c l1 ->
  numbered (c + Z.of_nat (length l1)) l2 ->
  numbered c (l1 ++ l2).
Proof.
  revert c. induction l1 as [| p l1 IH]; simpl; intros c H1 H2.
  - now rewrite Z.add_0_r in H2.
  - destruct H1 as [Hp H1]. split; [assumption |].
    apply IH; [assumption |].
    now replace (c + 1 + Z.of_nat (length l1))
      with (c + Z.pos (Pos.of_succ_nat (length l1))) by lia.
Qed.

Lemma numbered_ids (c : Z) (l : list SamplePoint) :
  numbered c l ->
  map record_id l = map (fun i => c + Z.of_nat i) (seq 0 (length l)).
Proof.
  revert c. induction l as [| p l IH]; simpl; intros c Hn; [reflexivity |].
  destruct Hn as [Hp Hn]. rewrite Hp, Z.add_0_r. f_equal.
  rewrite (IH _ Hn), <- seq_shift, map_map.
  apply map_ext. intros i. lia.
Qed.

Lemma extends_refl Q st : extends Q st st.
Proof.
  split; [reflexivity |].
  exists []. rewrite app_nil_r. simpl.
  repeat split; [lia | constructor].
Qed.

Lemma extends_trans Q st1 st2 st3 :
  extends Q st1 st2 -> extends Q st2 st3 -> extends Q st1 st3.
Proof.
  intros (L1 & n1 & S1 & C1 & N1 & F1) (L2 & n2 & S2 & C2 & N2 & F2).
  split; [congruence |].
  exists (n1 ++ n2). rewrite S2, S1, C2, C1, length_app, app_assoc.
  repeat split.
  - lia.
  - apply numbered_app; [assumption | now rewrite <- C1].
  - apply Forall_app. split; assumption.
Qed.

Lemma extends_weaken (Q Q' : SamplePoint -> Prop) st st' :
  (forall p, Q p -> Q' p) -> extends Q st st' -> extends Q' st st'.
Proof.
  intros HQ (L1 & n & S1 & C1 & N1 & F1). split; [assumption |]. exists n.
  repeat split; try assumption.
  eapply Forall_impl; eassumption.
Qed.

Lemma grows_weaken (Q Q' : SamplePoint -> Prop) {A} (m : M A) :
  (forall p, Q p -> Q' p) -> grows Q m -> grows Q' m.
Proof. intros HQ Hm st. eapply extends_weaken; [exact HQ | apply Hm]. Qed.

Lemma grows_ret Q {A} (a : A) : grows Q (ret a).
Proof. intros st. apply extends_refl. Qed.

Lemma grows_lift Q {A} (o : outcome A) : grows Q (lift o).
Proof. intros st. apply extends_refl. Qed.

Lemma grows_out_of_fuel Q {A} : grows Q (@out_of_fuel A).
Proof. intros st. apply extends_refl. Qed.

Lemma grows_bind Q {A B} (m : M A) (k : A -> M B) :
  grows Q m -> (forall a, grows Q (k a)) -> grows Q (bind m k).
Proof.
  intros Hm Hk st.
  destruct (bind_cases m k st) as [(a & _ & E) | (_ & E & _)]; rewrite E.
  - eapply extends_trans; [apply Hm | apply Hk].
  - apply Hm.
Qed.

Create HintDb grows.
#[local] Hint Resolve grows_ret grows_lift grows_out_of_fuel : grows.

Lemma grows_bind_lift Q {A B} (o : outcome A) (k : A -> M B) :
  (forall a, o = Returned a -> grows Q (k a)) -> grows Q (bind (lift o) k).
Proof.
  intros Hk st. unfold bind, lift.
  destruct o as [a | e | ]; simpl; try apply extends_refl.
  now apply Hk.
Qed.

Lemma extends_nothing st st' :
  extends (fun _ => False) st st' ->
  sink st' = sink st /\ count st' = count st.
Proof.
  intros (_ & new & S1 & C1 & _ & F1).
  destruct new as [| p new].
  - rewrite app_nil_r in S1. simpl in C1. split; [assumption | lia].
  - inversion F1; contradiction.
Qed.

(** ** The lattice walk of one feature *)

Section SamplerProperties.

Context {QgsGeometry : Type} `{GeometryEngine QgsGeometry}.

Variable geom : QgsGeometry.
Variable spacing : Z.

Lemma candidate_returns (x y : Z) (st : State) :
  snd (candidate geom x y st) = Returned tt.
Proof.
  unfold candidate. destruct (within _ geom); reflexivity.
Qed.

Lemma candidate_grows (x y : Z) :
  x mod spacing = 0 -> y mod spacing = 0 ->
  x_min_of geom <= x < x_max_of geom ->
  y_min_of geom <= y < y_max_of geom ->
  grows (sampled spacing geom) (candidate geom x y).
Proof.
  intros Hx Hy Bx By st. unfold candidate.
  destruct (within (mkPointXY x y) geom) eqn:W; [| apply extends_refl].
  cbn. split; [reflexivity |].
  eexists [_]. simpl. repeat split; try assumption; try lia.
  constructor; [| constructor].
  unfold sampled. simpl. repeat split; try assumption; lia.
Qed.

Hypothesis spacing_pos : 0 < spacing.

Lemma step_multiple (x : Z) :
  x mod spacing = 0 -> (x + spacing) mod spacing = 0.
Proof.
  intros Hx. replace (x + spacing) with (x + 1 * spacing) by lia.
  now rewrite Z_mod_plus_full.
Qed.

Lemma while_x_grows (y : Z) :
  y mod spacing = 0 -> y_min_of geom <= y < y_max_of geom ->
  forall fuel x,
    x mod spacing = 0 -> x_min_of geom <= x ->
    grows (sampled spacing geom)
          (while_x fuel geom spacing (x_max_of geom) y x).
Proof.
  intros Hy By. induction fuel as [| fuel IH]; simpl; intros x Hx Bx;
    [auto with grows |].
  destruct (Z.ltb_spec x (x_max_of geom)); [| auto with grows].
  apply grows_bind.
  - apply candidate_grows; try assumption; lia.
  - intros _. apply IH; [now apply step_multiple | lia].
Qed.

Lemma while_y_grows (start_x : Z) :
  start_x mod spacing = 0 -> x_min_of geom <= start_x ->
  forall fuel y,
    y mod spacing = 0 -> y_min_of geom <= y ->
    grows (sampled spacing geom)
          (while_y fuel geom spacing start_x
                   (x_max_of geom) (y_max_of geom) y).
Proof.
  intros Hx Bx. induction fuel as [| fuel IH]; simpl; intros y Hy By;
    [auto with grows |].
  destruct (Z.ltb_spec y (y_max_of geom)); [| auto with grows].
  apply grows_bind.
  - apply while_x_grows; try assumption; lia.
  - intros _. apply IH; [now apply step_multiple | lia].
Qed.

Lemma process_feature_grows (fuel : nat) :
  grows (sampled spacing geom) (process_feature fuel spacing geom).
Proof.
  unfold process_feature.
  apply grows_bind_lift. intros start_x Ex.
  apply grows_bind_lift. intros start_y Ey.
  apply while_y_grows.
  - eapply roundup_multiple; eassumption.
  - eapply roundup_ge; eassumption.
  - eapply roundup_multiple; eassumption.
  - eapply roundup_ge; eassumption.
Qed.

(** *** Termination *)

Lemma while_x_returns (end_x y : Z) :
  forall fuel x st,
    (Z.to_nat (end_x - x) < fuel)%nat ->
    snd (while_x fuel geom spacing end_x y x st) = Returned tt.
Proof.
  induction fuel as [| fuel IH]; intros x st Hf; [lia |]. simpl.
  destruct (Z.ltb_spec x end_x); [| reflexivity].
  rewrite (bind_returned _ _ _ tt) by apply candidate_returns.
  apply IH. lia.
Qed.

Lemma while_y_returns (start_x end_x end_y : Z) :
  forall fuel y st,
    (Z.to_nat (end_y - y) + Z.to_nat (end_x - start_x) + 1 < fuel)%nat ->
    snd (while_y fuel geom spacing start_x end_x end_y y st) = Returned tt.
Proof.
  induction fuel as [| fuel IH]; intros y st Hf; [lia |]. simpl.
  destruct (Z.ltb_spec y end_y); [| reflexivity].
  rewrite (bind_returned _ _ _ tt) by (apply while_x_returns; lia).
  apply IH. lia.
Qed.

(** The fuel is what stands for time: with a step of 0 the inner loop,
    once entered, has not ended after any amount of it. *)
Lemma while_x_zero_step_diverges (end_x y : Z) :
  forall fuel x st,
    x < end_x ->
    snd (while_x fuel geom 0 end_x y x st) = OutOfFuel.
Proof.
  induction fuel as [| fuel IH]; intros x st Hx; [reflexivity |]. simpl.
  destruct (Z.ltb_spec x end_x); [| lia].
  rewrite (bind_returned _ _ _ tt) by apply candidate_returns.
  rewrite Z.add_0_r. now apply IH.
Qed.

(** A spacing of 0 would stop the walk at [roundup]. *)
Lemma process_feature_zero_spacing (fuel : nat) (st : State) :
  process_feature fuel 0 geom st = (st, Raised ZeroDivisionError).
Proof. reflexivity. Qed.

(** More fuel than a loop needs does not change what it does. *)
Lemma while_x_fuel (end_x y : Z) :
  forall fuel fuel' x st,
    (Z.to_nat (end_x - x) < fuel)%nat ->
    (Z.to_nat (end_x - x) < fuel')%nat ->
    while_x fuel geom spacing end_x y x st
    = while_x fuel' geom spacing end_x y x st.
Proof.
  induction fuel as [| fuel IH]; intros fuel' x st Hf Hf'; [lia |].
  destruct fuel' as [| fuel']; [lia |]. simpl.
  destruct (Z.ltb_spec x end_x); [| reflexivity].
  rewrite !(bind_returned _ _ _ tt) by apply candidate_returns.
  apply IH; lia.
Qed.

Lemma while_y_fuel (start_x end_x end_y : Z) :
  forall fuel fuel' y st,
    (Z.to_nat (end_y - y) + Z.to_nat (end_x - start_x) + 1 < fuel)%nat ->
    (Z.to_nat (end_y - y) + Z.to_nat (end_x - start_x) + 1 < fuel')%nat ->
    while_y fuel geom spacing start_x end_x end_y y st
    = while_y fuel' geom spacing start_x end_x end_y y st.
Proof.
  induction fuel as [| fuel IH]; intros fuel' y st Hf Hf'; [lia |].
  destruct fuel' as [| fuel']; [lia |]. simpl.
  destruct (Z.ltb_spec y end_y); [| reflexivity].
  rewrite !(bind_returned _ _ _ tt) by (apply while_x_returns; lia).
  rewrite (while_x_fuel end_x y fuel fuel') by lia.
  apply IH; lia.
Qed.

Lemma process_feature_fuel (fuel fuel' : nat) (st : State) :
  (fuel_for geom <= fuel)%nat -> (fuel_for geom <= fuel')%nat ->
  process_feature fuel spacing geom st
  = process_feature fuel' spacing geom st.
Proof.
  unfold fuel_for, process_feature. intros Hf Hf'.
  fold (x_min_of geom) (y_min_of geom) (x_max_of geom) (y_max_of geom).
  destruct (roundup (x_min_of geom) spacing) as [sx | e | ] eqn:Ex;
    try reflexivity.
  destruct (roundup (y_min_of geom) spacing) as [sy | e | ] eqn:Ey;
    try reflexivity.
  pose proof (roundup_ge _ _ _ spacing_pos Ex).
  pose proof (roundup_ge _ _ _ spacing_pos Ey).
  unfold bind at 1 3, lift. simpl. unfold bind at 1 2, lift. simpl.
  apply while_y_fuel; lia.
Qed.

Lemma process_feature_returns (fuel : nat) (st : State) :
  (fuel_for geom <= fuel)%nat ->
  snd (process_feature fuel spacing geom st) = Returned tt.
Proof.
  unfold fuel_for, process_feature. intros Hf.
  fold (x_min_of geom) (y_min_of geom) (x_max_of geom) (y_max_of geom).
  destruct (roundup (x_min_of geom) spacing) as [sx | e | ] eqn:Ex;
    try (rewrite roundup_pos in Ex by lia; discriminate).
  destruct (roundup (y_min_of geom) spacing) as [sy | e | ] eqn:Ey;
    try (rewrite roundup_pos in Ey by lia; discriminate).
  pose proof (roundup_ge _ _ _ spacing_pos Ex).
  pose proof (roundup_ge _ _ _ spacing_pos Ey).
  unfold bind at 1, lift. simpl. unfold bind at 1, lift. simpl.
  apply while_y_returns; lia.
Qed.

End SamplerProperties.

(** ** The loop over the features *)

Section RunProperties.

Context {QgsGeometry : Type} `{GeometryEngine QgsGeometry}.

Lemma for_features_grows (fuel : nat) (canceled : nat -> bool) (s : Z) :
  0 < s ->
  forall features current last,
    grows (sampled_from_one s features)
          (for_features fuel canceled s features current last).
Proof.
  intros Hs. induction features as [| g rest IH]; simpl; intros current last;
    [auto with grows |].
  destruct (canceled current); [auto with grows |].
  apply grows_bind.
  - eapply grows_weaken; [| apply process_feature_grows; assumption].
    intros p Hp. exists g. split; [now left | assumption].
  - intros _. eapply grows_weaken; [| apply IH].
    intros p (g' & Hin & Hp). exists g'. split; [now right | assumption].
Qed.

Lemma for_features_returns (fuel : nat) (canceled : nat -> bool) (s : Z) :
  0 < s ->
  forall features current last st,
    Forall (fun g => (fuel_for g <= fuel)%nat) features ->
    exists r,
      snd (for_features fuel canceled s features current last st)
      = Returned r
      /\ (features <> [] -> r <> None).
Proof.
  intros Hs. induction features as [| g rest IH]; simpl;
    intros current last st Hf.
  - exists last. split; [reflexivity | congruence].
  - destruct (canceled current).
    + exists (Some current). split; [reflexivity | discriminate].
    + inversion Hf as [| ? ? Hg Hrest]; subst.
      rewrite (bind_returned _ _ _ tt)
        by (apply process_feature_returns; assumption).
      destruct (IH (S current) (Some current)
                   (fst (process_feature fuel s g st)) Hrest)
        as (r & Er & Hr).
      exists r. split; [assumption |].
      intros _. destruct rest as [| g' rest'].
      * simpl in Er. inversion Er. discriminate.
      * apply Hr. discriminate.
Qed.

(** ** The whole run *)

(** Two objects made one after the other are not the same object. *)
Lemma is_not_fresh (n : nat) : is_not (S n) n = true.
Proof.
  unfold is_not. destruct (Nat.eqb_spec (S n) n); [lia | reflexivity].
Qed.

Lemma is_not_next (n : nat) : is_not n (S n) = true.
Proof.
  unfold is_not. destruct (Nat.eqb_spec n (S n)); [lia | reflexivity].
Qed.

(** [processAlgorithm] by cases on what the host resolves and returns. *)
Lemma processAlgorithm_cases (fuel : nat) (host : Host QgsGeometry)
    (parameters : Parameters QgsGeometry) (st : State) :
  processAlgorithm fuel host parameters st
  = match INPUT parameters with
    | None =>
        (mkState (S (S (heap st))) (calls st) (sink st) (count st),
         Raised AttributeError)
    | Some layer =>
        let st2 :=
          mkState (heap (sampling_state st)) (calls (sampling_state st))
                  (sink st) (count st) in
        match reprojectlayer host layer with
        | inl e => (st2, Raised e)
        | inr source =>
            match OUTPUT parameters with
            | None =>
                (st2, Raised (QgsProcessingException
                                (invalidSinkError host)))
            | Some dest_id =>
                bind
                  (for_features fuel (isCanceled host)
                     (if GRID50 parameters then 50 else 100)
                     (getFeatures source) O None)
                  (fun current =>
                     match current with
                     | None => raise UnboundLocalError
                     | Some _ => ret dest_id
                     end)
                  (sampling_state st)
            end
        end
    end.
Proof.
  unfold processAlgorithm, generate_peat_layer, crs_object.
  destruct (INPUT parameters) as [layer |]; [| reflexivity].
  unfold bind at 1 2 3 4 5. simpl.
  unfold bind at 1 2. simpl.
  rewrite is_not_fresh.
  unfold run_reprojectlayer, bind at 1 2 3. simpl.
  destruct (reprojectlayer host layer) as [e | source]; simpl;
    [reflexivity |].
  destruct (OUTPUT parameters) as [dest_id |]; reflexivity.
Qed.

(** Lines 245-300: the loop and the read of [current] after it. *)
Lemma sampling_grows (fuel : nat) (canceled : nat -> bool) (s : Z)
    (dest_id : string) :
  0 < s ->
  forall features,
    grows (sampled_from_one s features)
          (bind (for_features fuel canceled s features O None)
                (fun current =>
                   match current with
                   | None => raise UnboundLocalError
                   | Some _ => ret dest_id
                   end)).
Proof.
  intros Hs features.
  apply grows_bind; [now apply for_features_grows |].
  intros [c |]; intros st0; apply extends_refl.
Qed.

(** What every run leaves in a sink that was empty when it started. *)
Lemma run_sink (fuel : nat) (host : Host QgsGeometry)
    (parameters : Parameters QgsGeometry) (st : State) :
  sink st = [] ->
  let st' := fst (processAlgorithm fuel host parameters st) in
  numbered 1 (sink st')
  /\ Forall (fun p =>
               exists g,
                 sampled (if GRID50 parameters then 50 else 100) g p)
            (sink st').
Proof.
  intros Hsink. rewrite processAlgorithm_cases.
  destruct (INPUT parameters) as [layer |]; simpl;
    [| rewrite Hsink; split; [exact I | constructor]].
  destruct (reprojectlayer host layer) as [e | source]; simpl;
    [rewrite Hsink; split; [exact I | constructor] |].
  destruct (OUTPUT parameters) as [dest_id |]; simpl;
    [| rewrite Hsink; split; [exact I | constructor]].
  set (s := if GRID50 parameters then 50 else 100).
  assert (Hs : 0 < s) by (subst s; destruct (GRID50 parameters); lia).
  destruct (sampling_grows fuel (isCanceled host) s dest_id Hs
              (getFeatures source) (sampling_state st))
    as (_ & new & S1 & _ & N1 & F1).
  rewrite S1. simpl. rewrite Hsink. simpl. split; [exact N1 |].
  eapply Forall_impl; [| exact F1].
  intros p (g & _ & Hp). exists g. exact Hp.
Qed.

(** Whenever the source is a layer, the run calls the reprojection
    algorithm once, and nothing else. *)
Lemma run_calls (fuel : nat) (host : Host QgsGeometry)
    (layer : QgsVectorLayer QgsGeometry) (grid50 : bool)
    (output : option string) (st : State) :
  calls (fst (processAlgorithm fuel host
                (mkParameters (Some layer) grid50 output) st))
  = calls st ++ ["qgis:reprojectlayer"%string].
Proof.
  rewrite processAlgorithm_cases. simpl.
  destruct (reprojectlayer host layer) as [e | source]; simpl;
    [reflexivity |].
  destruct output as [dest_id |]; simpl; [| reflexivity].
  assert (Hs : 0 < (if grid50 then 50 else 100)) by (destruct grid50; lia).
  destruct (sampling_grows fuel (isCanceled host) _ dest_id Hs
              (getFeatures source) (sampling_state st)) as (L & _).
  exact L.
Qed.

(** In [PeatlandCodeAssessmentBase] the guard holds of every layer too:
    each one is handed to the reprojection algorithm. *)
Lemma reproject_non_peatland_cons (host : Host QgsGeometry)
    (layer : QgsVectorLayer QgsGeometry)
    (rest : list (QgsVectorLayer QgsGeometry)) (st : State) :
  reproject_non_peatland host (layer :: rest) st
  = bind (run_reprojectlayer host layer)
         (fun layer' =>
            rest' <- reproject_non_peatland host rest ;;
            ret (layer' :: rest'))
         (mkState (S (S (heap st))) (calls st) (sink st) (count st)).
Proof.
  simpl. unfold crs_object.
  unfold bind at 1 2 3 4. simpl.
  rewrite is_not_next. reflexivity.
Qed.

(** With enough fuel for each feature of the sampled layer the run does
    not stop for lack of fuel. *)
Lemma run_terminates (host : Host QgsGeometry)
    (parameters : Parameters QgsGeometry) (st : State) :
  exists N, forall fuel, (N <= fuel)%nat ->
    snd (processAlgorithm fuel host parameters st) <> OutOfFuel.
Proof.
  destruct (INPUT parameters) as [layer |] eqn:EI.
  2: { exists O. intros fuel _. rewrite processAlgorithm_cases, EI.
       discriminate. }
  destruct (reprojectlayer host layer) as [e | source] eqn:ER.
  { exists O. intros fuel _. rewrite processAlgorithm_cases, EI. simpl.
    rewrite ER. discriminate. }
  exists (list_max (map fuel_for (getFeatures source))).
  intros fuel Hf. rewrite processAlgorithm_cases, EI. simpl. rewrite ER.
  destruct (OUTPUT parameters) as [dest_id |]; [| discriminate].
  assert (Hs : 0 < (if GRID50 parameters then 50 else 100))
    by (destruct (GRID50 parameters); lia).
  assert (Hall : Forall (fun g => (fuel_for g <= fuel)%nat)
                   (getFeatures source)).
  { apply list_max_le in Hf. rewrite Forall_map in Hf. exact Hf. }
  destruct (for_features_returns fuel (isCanceled host) _ Hs
              (getFeatures source) O None (sampling_state st) Hall)
    as (r & Er & _).
  rewrite (bind_returned _ _ _ r Er).
  destruct r; discriminate.
Qed.

End RunProperties.

(** * The sampler's contract *)

Section Contract.

Context {QgsGeometry : Type} `{GeometryEngine QgsGeometry}.

Lemma configured_spacing_pos (grid50 : bool) :
  0 < (if grid50 then 50 else 100).
Proof. destruct grid50; lia. Qed.

(** C1: every feature the lattice walk over a polygon adds to the sink
    lies at a point that is within that polygon, hence not on its
    boundary, and both of its coordinates are multiples of the configured
    spacing: the lattice is anchored at the origin (0,0), not at the
    polygon's bounding box. *)
Theorem emitted_inside_on_global_lattice
    (fuel : nat) (grid50 : bool) (geom : QgsGeometry) (st : State) :
  let spacing := if grid50 then 50 else 100 in
  exists new,
    sink (fst (process_feature fuel spacing geom st)) = sink st ++ new
    /\ Forall (fun p =>
                 geometry p = mkPointXY (easting p) (northing p)
                 /\ within (mkPointXY (easting p) (northing p)) geom = true
                 /\ touches (mkPointXY (easting p) (northing p)) geom
                    = false
                 /\ easting p mod spacing = 0
                 /\ northing p mod spacing = 0)
              new.
Proof.
  intros spacing.
  destruct (process_feature_grows geom spacing
              (configured_spacing_pos grid50) fuel st)
    as (_ & new & S1 & _ & _ & F1).
  exists new. split; [exact S1 |].
  eapply Forall_impl; [| exact F1].
  intros p (G & W & Mx & My & _). rewrite G in W.
  repeat split; try assumption.
  now apply within_not_touches.
Qed.

(** C5: no feature the walk over a polygon adds to the sink has its
    easting at the truncated [xMaximum] of the polygon's bounding box or
    its northing at the truncated [yMaximum]: both stay strictly below. *)
Theorem upper_bounds_exclusive
    (fuel : nat) (grid50 : bool) (geom : QgsGeometry) (st : State) :
  let spacing := if grid50 then 50 else 100 in
  exists new,
    sink (fst (process_feature fuel spacing geom st)) = sink st ++ new
    /\ Forall (fun p =>
                 easting p < int (xMaximum (boundingBox geom))
                 /\ northing p < int (yMaximum (boundingBox geom))
                 /\ easting p <> int (xMaximum (boundingBox geom))
                 /\ northing p <> int (yMaximum (boundingBox geom)))
              new.
Proof.
  intros spacing.
  destruct (process_feature_grows geom spacing
              (configured_spacing_pos grid50) fuel st)
    as (_ & new & S1 & _ & _ & F1).
  exists new. split; [exact S1 |].
  eapply Forall_impl; [| exact F1].
  intros p (_ & _ & _ & _ & Bx & By & _).
  unfold x_max_of, y_max_of in *. lia.
Qed.

(** C8: for every polygon the walk ends, without an exception, as soon as
    it has [fuel_for] the polygon's bounding box, and always in the same
    state; when the bounding box has collapsed to a line or a point, and
    when no point is within the polygon (as for a polygon of zero area),
    that state has the sink it started with. *)
Theorem walk_terminates_degenerate_empty
    (grid50 : bool) (geom : QgsGeometry) (st : State) :
  let spacing := if grid50 then 50 else 100 in
  let bbox := boundingBox geom in
  exists st',
    (forall fuel, (fuel_for geom <= fuel)%nat ->
       process_feature fuel spacing geom st = (st', Returned tt))
    /\ ((xMinimum bbox == xMaximum bbox)%Q
        \/ (yMinimum bbox == yMaximum bbox)%Q ->
        sink st' = sink st)
    /\ ((forall point, within point geom = false) -> sink st' = sink st).
Proof.
  intros spacing bbox.
  pose proof (configured_spacing_pos grid50) as Hs.
  exists (fst (process_feature (fuel_for geom) spacing geom st)).
  split; [| split].
  - intros fuel Hf.
    rewrite (process_feature_fuel geom spacing Hs fuel (fuel_for geom))
      by (assumption || apply Nat.le_refl).
    rewrite (surjective_pairing (process_feature _ _ _ _)). f_equal.
    apply process_feature_returns; [assumption | apply Nat.le_refl].
  - intros Hbox.
    apply (extends_nothing st).
    eapply extends_weaken;
      [| apply (process_feature_grows geom spacing Hs)].
    intros p (_ & _ & _ & _ & Bx & By & _).
    unfold x_min_of, x_max_of, y_min_of, y_max_of in *.
    destruct Hbox as [E | E]; apply int_Qeq in E; fold bbox in Bx, By; lia.
  - intros Hout.
    apply (extends_nothing st).
    eapply extends_weaken;
      [| apply (process_feature_grows geom spacing Hs)].
    intros p (_ & W & _). rewrite Hout in W. discriminate.
Qed.

(** C6: in a run the record ids of the sink are 1, 2, 3, ... in the order
    of emission, whatever the number of features of the layer and however
    the run ends. *)
Theorem record_ids_sequential
    (fuel : nat) (host : Host QgsGeometry)
    (parameters : Parameters QgsGeometry) (h : Py.id) :
  let emitted := sink (fst (processAlgorithm fuel host parameters (init h))) in
  map record_id emitted = map Z.of_nat (seq 1 (length emitted)).
Proof.
  intros emitted.
  destruct (run_sink fuel host parameters (init h) eq_refl) as [Hn _].
  fold emitted in Hn. rewrite (numbered_ids _ _ Hn).
  rewrite <- seq_shift, map_map. apply map_ext. intros i. lia.
Qed.

(** C2: for every feature of the sink of a run, the spacing attribute is
    100 exactly when easting and northing are both multiples of 100, and
    is the configured spacing of the run otherwise; the configured spacing
    is 50 or 100 according to [GRID50]. *)
Theorem spacing_attribute_classifies
    (fuel : nat) (host : Host QgsGeometry)
    (parameters : Parameters QgsGeometry) (h : Py.id) :
  let configured := if GRID50 parameters then 50 else 100 in
  Forall (fun p =>
            (spacing_attr p = 100
             <-> easting p mod 100 = 0 /\ northing p mod 100 = 0)
            /\ (~ (easting p mod 100 = 0 /\ northing p mod 100 = 0) ->
                spacing_attr p = configured))
         (sink (fst (processAlgorithm fuel host parameters (init h)))).
Proof.
  intros configured.
  destruct (run_sink fuel host parameters (init h) eq_refl) as [_ Hf].
  eapply Forall_impl; [| exact Hf].
  intros p (g & _ & _ & Mx & My & _ & _ & T). fold configured in Mx, My.
  rewrite T.
  assert (Fine : ~ (easting p mod 100 = 0 /\ northing p mod 100 = 0) ->
                 50 = configured).
  { intros Hn. subst configured.
    destruct (GRID50 parameters); [reflexivity |].
    exfalso. apply Hn. now split. }
  destruct (Z.eqb_spec (easting p mod 100) 0) as [Ex | Ex];
    destruct (Z.eqb_spec (northing p mod 100) 0) as [Ey | Ey]; simpl.
  - split; [split; [intros _; now split | reflexivity] |].
    intros Hn. exfalso. apply Hn. now split.
  - split; [split; [discriminate | intros [_ E]; contradiction] |].
    exact Fine.
  - split; [split; [discriminate | intros [E _]; contradiction] |].
    exact Fine.
  - split; [split; [discriminate | intros [E _]; contradiction] |].
    exact Fine.
Qed.

(** C10: when [GRID50] is false the branch that sets the spacing
    attribute to 50 is never taken: every feature of the sink, for every
    layer and every [within] (also one that holds of all candidates), has
    both coordinates divisible by 100 and the spacing attribute 100. *)
Theorem fine_tag_unreachable_at_100
    (fuel : nat) (host : Host QgsGeometry)
    (input : option (QgsVectorLayer QgsGeometry))
    (output : option string) (h : Py.id) :
  Forall (fun p =>
            easting p mod 100 = 0
            /\ northing p mod 100 = 0
            /\ spacing_attr p = 100
            /\ spacing_attr p <> 50)
         (sink (fst (processAlgorithm fuel host
                       (mkParameters input false output) (init h)))).
Proof.
  destruct (run_sink fuel host (mkParameters input false output)
              (init h) eq_refl) as [_ Hf].
  eapply Forall_impl; [| exact Hf]. simpl.
  intros p (g & _ & _ & Mx & My & _ & _ & T).
  rewrite T, Mx, My. simpl. repeat split; discriminate.
Qed.

(** C9, as the code has it: when [INPUT] resolves to [None] the run ends
    at [source.sourceCrs()] with an [AttributeError], before the check
    that would raise the invalid-source [QgsProcessingException]; nothing
    was added to the sink. *)
Theorem missing_source_raises_AttributeError
    (fuel : nat) (host : Host QgsGeometry) (grid50 : bool)
    (output : option string) (h : Py.id) :
  let run := processAlgorithm fuel host (mkParameters None grid50 output)
               (init h) in
  run = (mkState (S (S h)) [] [] 0, Raised AttributeError)
  /\ snd run <> Raised (QgsProcessingException (invalidSourceError host))
  /\ sink (fst run) = [].
Proof.
  simpl. rewrite processAlgorithm_cases. simpl.
  repeat split. discriminate.
Qed.

(** C7, as the code has it: the guard of the reprojection stage compares
    two distinct objects with [is not], so it holds for every source
    layer, also one already in EPSG:27700: the run calls
    "qgis:reprojectlayer" and goes on with what that algorithm returns; if
    the algorithm raises, so does the run. *)
Theorem bng_source_is_reprojected
    (fuel : nat) (host : Host QgsGeometry) (features : list QgsGeometry)
    (grid50 : bool) (output : option string) (h : Py.id) :
  let source := mkLayer 27700 features in
  let run := processAlgorithm fuel host
               (mkParameters (Some source) grid50 output) (init h) in
  calls (fst run) = ["qgis:reprojectlayer"%string]
  /\ (forall e, reprojectlayer host source = inl e -> snd run = Raised e)
  /\ (forall reproj dest_id,
        reprojectlayer host source = inr reproj ->
        output = Some dest_id ->
        run = bind (for_features fuel (isCanceled host)
                      (if grid50 then 50 else 100)
                      (getFeatures reproj) O None)
                   (fun current =>
                      match current with
                      | None => raise UnboundLocalError
                      | Some _ => ret dest_id
                      end)
                   (sampling_state (init h))).
Proof.
  simpl. split; [| split].
  - apply (run_calls fuel host (mkLayer 27700 features) grid50 output
             (init h)).
  - intros e E. rewrite processAlgorithm_cases. simpl. now rewrite E.
  - intros reproj dest_id E ->. rewrite processAlgorithm_cases. simpl.
    now rewrite E.
Qed.

End Contract.

(** * Worked runs *)

(** C3, as stated, fails: on the square (0,0)-(150,150) at spacing 50 the
    walk ends normally and the sink does not hold just (50,50) and
    (100,100): it also holds (100,50) and (50,100). *)
Lemma scenario_B_not_two_points :
  snd (process_feature 302 50 square150 (loop_start O)) = Returned tt
  /\ map coordinates_and_tag
         (sink (fst (process_feature 302 50 square150 (loop_start O))))
     <> [(50, 50, 50); (100, 100, 100)].
Proof.
  split; [vm_compute; reflexivity |].
  vm_compute. discriminate.
Qed.

(** C3, amended: on the square (0,0)-(150,150) at spacing 50 the walk emits
    exactly the four points (50,50), (100,50), (50,100) and (100,100), in
    that order and numbered from the counter; (100,100) is tagged 100 and
    the other three are tagged 50. *)
Theorem scenario_B_four_points (fuel : nat) (h : Py.id) :
  (fuel_for square150 <= fuel)%nat ->
  process_feature fuel 50 square150 (loop_start h)
  = (mkState h [] square150_points 5, Returned tt).
Proof.
  intros Hf.
  rewrite (process_feature_fuel square150 50 ltac:(lia) fuel 302)
    by (assumption || (vm_compute; lia)).
  vm_compute. reflexivity.
Qed.

Lemma scenario_B_four_points_witness :
  (fuel_for square150 <= 302)%nat
  /\ process_feature 302 50 square150 (loop_start O)
     = (mkState O [] square150_points 5, Returned tt).
Proof.
  assert (Hf : (fuel_for square150 <= 302)%nat) by (vm_compute; lia).
  split; [exact Hf |].
  exact (scenario_B_four_points 302%nat O Hf).
Defined.

(** Scenario A of the same square at spacing 100: the one point (100,100). *)
Example scenario_A_one_point :
  process_feature 302 100 square150 (loop_start O)
  = (mkState O [] [mkSamplePoint (mkPointXY 100 100) 1 100 100 100] 2,
     Returned tt).
Proof. vm_compute. reflexivity. Qed.

(** The lattice does not start at the bounding box: the square
    (30,30)-(130,130) is sampled at 50 and 100, not at 80. *)
Example lattice_not_anchored_at_bbox :
  map coordinates_and_tag
      (sink (fst (process_feature 302 50 (mkBox 30 30 130 130) (loop_start O))))
  = [(50, 50, 50); (100, 50, 50); (50, 100, 50); (100, 100, 100)].
Proof. vm_compute. reflexivity. Qed.

(** A whole run over a layer of two squares: the second feature's record
    ids go on from the first's. *)
Example two_features_share_counter :
  let run := processAlgorithm 302 copy_host
               (mkParameters (Some (mkLayer 27700 [square150; square150]))
                             true (Some "out"%string))
               (init O) in
  snd run = Returned "out"%string
  /\ map record_id (sink (fst run)) = [1; 2; 3; 4; 5; 6; 7; 8]
  /\ map coordinates_and_tag (sink (fst run))
     = map coordinates_and_tag (square150_points ++ square150_points).
Proof. vm_compute. repeat split. Qed.

Lemma walk_terminates_degenerate_empty_witness :
  exists st',
    (forall fuel, (fuel_for segment <= fuel)%nat ->
       process_feature fuel 50 segment (loop_start O) = (st', Returned tt))
    /\ sink st' = [].
Proof.
  destruct (walk_terminates_degenerate_empty true segment (loop_start O))
    as (st' & Hrun & Hbox & _).
  exists st'. split; [exact Hrun |].
  apply Hbox. left. reflexivity.
Defined.

(** A run over a layer whose one feature is degenerate ends normally with
    an empty sink. *)
Example scenario_C_run :
  processAlgorithm 302 copy_host
    (mkParameters (Some (mkLayer 27700 [segment])) true (Some "out"%string))
    (init O)
  = (mkState 3%nat ["qgis:reprojectlayer"%string] [] 1, Returned "out"%string).
Proof. vm_compute. reflexivity. Qed.

(** A run over a layer without features ends at the read of [current]. *)
Example no_features_run :
  snd (processAlgorithm 302 copy_host
         (mkParameters (Some (mkLayer 27700 [])) true (Some "out"%string))
         (init O))
  = Raised UnboundLocalError.
Proof. vm_compute. reflexivity. Qed.

(** A source already in EPSG:27700 is still handed to the reprojection
    algorithm: when that fails, the run fails and samples nothing. *)
Example bng_source_fails_with_reprojection :
  processAlgorithm 302 failing_host
    (mkParameters (Some (mkLayer 27700 [square150])) true (Some "out"%string))
    (init O)
  = (mkState 3%nat ["qgis:reprojectlayer"%string] [] 0,
     Raised (QgsProcessingException "reprojection failed")).
Proof. vm_compute. reflexivity. Qed.

(** The same guard in [PeatlandCodeAssessmentBase]: both layers, already in
    EPSG:27700, are reprojected. *)
Example non_peatland_layers_reprojected :
  calls (fst (reproject_non_peatland copy_host
                [mkLayer 27700 [square150]; mkLayer 27700 [segment]]
                (init O)))
  = ["qgis:reprojectlayer"%string; "qgis:reprojectlayer"%string].
Proof. vm_compute. reflexivity. Qed.

(** * Further properties of the walk *)

(** ** Ranges *)

Lemma range_from_enough (step stop : Z) :
  0 < step ->
  forall n start,
    (Z.to_nat (stop - start) <= n)%nat ->
    range_from n start stop step = range start stop step.
Proof.
  intros Hs. unfold range.
  assert (G : forall n m start,
             (Z.to_nat (stop - start) <= n)%nat ->
             (Z.to_nat (stop - start) <= m)%nat ->
             range_from n start stop step = range_from m start stop step).
  { induction n as [| n IH]; intros m start Hn Hm.
    - destruct m as [| m]; [reflexivity |]. simpl.
      destruct (Z.ltb_spec start stop); [lia | reflexivity].
    - destruct m as [| m]; simpl.
      + destruct (Z.ltb_spec start stop); [lia | reflexivity].
      + destruct (Z.ltb_spec start stop); [| reflexivity].
        f_equal. apply IH; lia. }
  intros n start Hn. apply G; [assumption | apply Nat.le_refl].
Qed.

Lemma range_unfold (start stop step : Z) :
  0 < step ->
  range start stop step
  = if start <? stop then start :: range (start + step) stop step else [].
Proof.
  intros Hs. unfold range at 1.
  destruct (Z.ltb_spec start stop) as [Hlt | Hge].
  - destruct (Z.to_nat (stop - start)) as [| n] eqn:E; [lia |]. simpl.
    destruct (Z.ltb_spec start stop); [| lia].
    f_equal. apply range_from_enough; [assumption | lia].
  - replace (Z.to_nat (stop - start)) with O by lia. reflexivity.
Qed.

Lemma range_In (step stop : Z) :
  0 < step ->
  forall n start v,
    In v (range_from n start stop step) ->
    start <= v < stop /\ (v - start) mod step = 0.
Proof.
  intros Hs. induction n as [| n IH]; simpl; intros start v Hin;
    [contradiction |].
  destruct (Z.ltb_spec start stop); [| contradiction].
  destruct Hin as [<- | Hin].
  - rewrite Z.sub_diag. split; [lia | reflexivity].
  - apply IH in Hin. destruct Hin as [Hb Hm]. split; [lia |].
    replace (v - start) with (v - (start + step) + 1 * step) by lia.
    now rewrite Z_mod_plus_full.
Qed.

Lemma In_range (step stop : Z) :
  0 < step ->
  forall n start v,
    (Z.to_nat (stop - start) <= n)%nat ->
    start <= v < stop -> (v - start) mod step = 0 ->
    In v (range_from n start stop step).
Proof.
  intros Hs. induction n as [| n IH]; intros start v Hn Hb Hm; [lia |].
  simpl. destruct (Z.ltb_spec start stop); [| lia].
  destruct (Z.eq_dec v start) as [-> | Hne]; [now left |]. right.
  assert (Hstep : start + step <= v).
  { apply Z.mod_divide in Hm; [| lia]. destruct Hm as [k Hk].
    assert (0 < k) by nia. nia. }
  apply IH; [lia | lia |].
  replace (v - (start + step)) with (v - start + (-1) * step) by lia.
  now rewrite Z_mod_plus_full.
Qed.

Lemma roundup_first_multiple (v s : Z) :
  0 < s -> roundup v s = Returned (first_multiple v s).
Proof.
  intros Hs. rewrite roundup_pos by lia. f_equal. unfold first_multiple.
  pose proof (Z.div_mod v s ltac:(lia)) as Hd.
  pose proof (Z.mod_pos_bound v s Hs) as Hb.
  destruct (Z.eqb_spec (v mod s) 0) as [E | E].
  - replace ((v + s - 1) / s) with (v / s); [lia |].
    apply (Z.div_unique (v + s - 1) s (v / s) (s - 1)); lia.
  - replace ((v + s - 1) / s) with (v / s + 1); [lia |].
    apply (Z.div_unique (v + s - 1) s (v / s + 1) (v mod s - 1)); lia.
Qed.

Lemma first_multiple_spec (v s : Z) :
  0 < s ->
  first_multiple v s mod s = 0
  /\ v <= first_multiple v s
  /\ forall m, m mod s = 0 -> v <= m -> first_multiple v s <= m.
Proof.
  intros Hs.
  pose proof (roundup_first_multiple v s Hs) as E.
  split; [eapply roundup_multiple; exact E |].
  split; [eapply roundup_ge; eassumption |].
  intros m Hm Hle. unfold first_multiple.
  apply Z.mod_divide in Hm; [| lia]. destruct Hm as [k ->].
  assert ((v + s - 1) / s < k + 1); [| nia].
  apply Z.div_lt_upper_bound; [assumption |]. nia.
Qed.

(** ** Emission in bulk *)

Lemma emit_all_app (c : Z) (a b : list (Z * Z)) :
  emit_all c (a ++ b)
  = emit_all c a ++ emit_all (c + Z.of_nat (length a)) b.
Proof.
  revert c. induction a as [| [x y] a IH]; simpl; intros c.
  - now rewrite Z.add_0_r.
  - rewrite IH. do 3 f_equal. lia.
Qed.

Lemma emit_all_coordinates (c : Z) (pts : list (Z * Z)) :
  map coordinates (emit_all c pts) = pts.
Proof.
  revert c. induction pts as [| [x y] pts IH]; simpl; intros c;
    [reflexivity |].
  now rewrite IH.
Qed.

Lemma emit_all_length (c : Z) (pts : list (Z * Z)) :
  length (emit_all c pts) = length pts.
Proof. rewrite <- (length_map coordinates), emit_all_coordinates. reflexivity. Qed.

Lemma push_nil (st : State) : push st [] = st.
Proof.
  destruct st as [h cs sk c]. unfold push. simpl.
  now rewrite app_nil_r, Z.add_0_r.
Qed.

Lemma push_push (st : State) (a b : list (Z * Z)) :
  push (push st a) b = push st (a ++ b).
Proof.
  unfold push. simpl.
  rewrite emit_all_app, app_assoc, length_app, Nat2Z.inj_add, Z.add_assoc.
  reflexivity.
Qed.

(** ** The walk of one feature, exactly *)

Section WalkExactly.

Context {QgsGeometry : Type} `{GeometryEngine QgsGeometry}.

Variable geom : QgsGeometry.
Variable spacing : Z.
Hypothesis spacing_pos : 0 < spacing.

Lemma candidate_exact (x y : Z) (st : State) :
  candidate geom x y st
  = (push st (filter (inside geom) [(x, y)]), Returned tt).
Proof.
  unfold candidate, inside. simpl.
  destruct (within (mkPointXY x y) geom).
  - reflexivity.
  - now rewrite push_nil.
Qed.

Lemma while_x_exact (end_x y : Z) :
  forall fuel x st,
    (Z.to_nat (end_x - x) < fuel)%nat ->
    while_x fuel geom spacing end_x y x st
    = (push st (filter (inside geom)
                  (map (fun x' => (x', y)) (range x end_x spacing))),
       Returned tt).
Proof.
  induction fuel as [| fuel IH]; intros x st Hf; [lia |]. simpl.
  rewrite (range_unfold x end_x spacing spacing_pos).
  destruct (Z.ltb_spec x end_x).
  - unfold bind. rewrite candidate_exact.
    rewrite IH by lia. rewrite push_push, <- filter_app. reflexivity.
  - now rewrite push_nil.
Qed.

Lemma while_y_exact (start_x end_x end_y : Z) :
  forall fuel y st,
    (Z.to_nat (end_y - y) + Z.to_nat (end_x - start_x) + 1 < fuel)%nat ->
    while_y fuel geom spacing start_x end_x end_y y st
    = (push st
         (filter (inside geom)
            (flat_map
               (fun y' =>
                  map (fun x' => (x', y')) (range start_x end_x spacing))
               (range y end_y spacing))),
       Returned tt).
Proof.
  induction fuel as [| fuel IH]; intros y st Hf; [lia |]. simpl.
  rewrite (range_unfold y end_y spacing spacing_pos).
  destruct (Z.ltb_spec y end_y).
  - unfold bind. rewrite while_x_exact by lia.
    rewrite IH by lia. rewrite push_push, <- filter_app. reflexivity.
  - now rewrite push_nil.
Qed.

Lemma process_feature_exact (fuel : nat) (st : State) :
  (fuel_for geom <= fuel)%nat ->
  process_feature fuel spacing geom st
  = (push st (inside_candidates spacing geom), Returned tt).
Proof.
  intros Hf. unfold process_feature, fuel_for in *.
  fold (x_min_of geom) (y_min_of geom) (x_max_of geom) (y_max_of geom) in *.
  rewrite !roundup_first_multiple by assumption.
  destruct (first_multiple_spec (x_min_of geom) spacing spacing_pos)
    as (_ & Hx & _).
  destruct (first_multiple_spec (y_min_of geom) spacing spacing_pos)
    as (_ & Hy & _).
  unfold bind at 1, lift. simpl. unfold bind at 1, lift. simpl.
  rewrite while_y_exact by lia. reflexivity.
Qed.

End WalkExactly.

(** ** Which points are candidates, and in which order *)

Lemma In_range_iff (start stop step v : Z) :
  0 < step ->
  In v (range start stop step)
  <-> start <= v < stop /\ (v - start) mod step = 0.
Proof.
  intros Hs. unfold range. split.
  - apply range_In; assumption.
  - intros [Hb Hm]. apply In_range; try assumption. apply Nat.le_refl.
Qed.

Lemma multiple_from_first (v s x : Z) :
  0 < s ->
  (first_multiple v s <= x /\ (x - first_multiple v s) mod s = 0)
  <-> (v <= x /\ x mod s = 0).
Proof.
  intros Hs.
  destruct (first_multiple_spec v s Hs) as (Hm & Hge & Hleast).
  assert (E : (x - first_multiple v s) mod s = x mod s).
  { apply Z.mod_divide in Hm; [| lia]. destruct Hm as [k Hk]. rewrite Hk.
    replace (x - k * s) with (x + (- k) * s) by lia.
    apply Z_mod_plus_full. }
  rewrite E. split.
  - intros [Hle Hx]. split; [lia | assumption].
  - intros [Hle Hx]. split; [now apply Hleast | assumption].
Qed.

Section Candidates.

Context {QgsGeometry : Type} `{GeometryEngine QgsGeometry}.

(** The candidates of a polygon are the multiples of the spacing, in both
    coordinates, between the truncated minima and below the truncated
    maxima of its bounding box. *)
Lemma In_candidates (s : Z) (g : QgsGeometry) (x y : Z) :
  0 < s ->
  In (x, y) (candidates s g)
  <-> x mod s = 0 /\ y mod s = 0
      /\ x_min_of g <= x < x_max_of g
      /\ y_min_of g <= y < y_max_of g.
Proof.
  intros Hs. unfold candidates. rewrite in_flat_map. split.
  - intros (y' & Hy & Hin). apply in_map_iff in Hin.
    destruct Hin as (x' & E & Hx). inversion E; subst x' y'.
    apply In_range_iff in Hx; [| assumption].
    apply In_range_iff in Hy; [| assumption].
    destruct Hx as [[Hx1 Hx2] Hx3]. destruct Hy as [[Hy1 Hy2] Hy3].
    destruct (proj1 (multiple_from_first (x_min_of g) s x Hs)
                (conj Hx1 Hx3)).
    destruct (proj1 (multiple_from_first (y_min_of g) s y Hs)
                (conj Hy1 Hy3)).
    repeat split; assumption.
  - intros (Mx & My & [Bx1 Bx2] & [By1 By2]).
    destruct (proj2 (multiple_from_first (x_min_of g) s x Hs)
                (conj Bx1 Mx)).
    destruct (proj2 (multiple_from_first (y_min_of g) s y Hs)
                (conj By1 My)).
    exists y. split.
    + apply In_range_iff; [assumption |]. repeat split; assumption.
    + apply in_map_iff. exists x. split; [reflexivity |].
      apply In_range_iff; [assumption |]. repeat split; assumption.
Qed.

Lemma In_inside_candidates (s : Z) (g : QgsGeometry) (x y : Z) :
  0 < s ->
  In (x, y) (inside_candidates s g)
  <-> x mod s = 0 /\ y mod s = 0
      /\ x_min_of g <= x < x_max_of g
      /\ y_min_of g <= y < y_max_of g
      /\ within (mkPointXY x y) g = true.
Proof.
  intros Hs. unfold inside_candidates. rewrite filter_In.
  rewrite (In_candidates s g x y Hs). unfold inside. simpl. tauto.
Qed.

End Candidates.

Lemma StronglySorted_app {A} (R : A -> A -> Prop) (l1 l2 : list A) :
  StronglySorted R l1 -> StronglySorted R l2 ->
  (forall a b, In a l1 -> In b l2 -> R a b) ->
  StronglySorted R (l1 ++ l2).
Proof.
  induction l1 as [| a l1 IH]; simpl; intros S1 S2 Hab; [assumption |].
  apply StronglySorted_inv in S1. destruct S1 as [S1 F1].
  constructor.
  - apply IH; [assumption | assumption |]. intros; apply Hab; auto.
  - apply Forall_app. split; [assumption |].
    apply Forall_forall. intros b Hb. apply Hab; auto.
Qed.

Lemma StronglySorted_filter {A} (R : A -> A -> Prop) (f : A -> bool)
    (l : list A) :
  StronglySorted R l -> StronglySorted R (filter f l).
Proof.
  induction l as [| a l IH]; simpl; intros Hs; [constructor |].
  apply StronglySorted_inv in Hs. destruct Hs as [Hs Hf].
  destruct (f a); [| now apply IH].
  constructor; [now apply IH |].
  apply Forall_forall. intros b Hb. apply filter_In in Hb.
  rewrite Forall_forall in Hf. apply Hf. tauto.
Qed.

Lemma StronglySorted_NoDup {A} (R : A -> A -> Prop) (l : list A) :
  (forall a, ~ R a a) -> StronglySorted R l -> NoDup l.
Proof.
  intros Hirr. induction l as [| a l IH]; intros Hs; [constructor |].
  apply StronglySorted_inv in Hs. destruct Hs as [Hs Hf].
  constructor; [| now apply IH].
  intros Hin. rewrite Forall_forall in Hf. exact (Hirr a (Hf a Hin)).
Qed.

Lemma range_sorted (start stop step : Z) :
  0 < step -> StronglySorted Z.lt (range start stop step).
Proof.
  intros Hs. unfold range. generalize (Z.to_nat (stop - start)) as n.
  intros n. revert start.
  induction n as [| n IH]; simpl; intros start; [constructor |].
  destruct (start <? stop); [| constructor].
  constructor; [apply IH |].
  apply Forall_forall. intros v Hv.
  apply range_In in Hv; [lia | assumption].
Qed.

Lemma rows_sorted (xs ys : list Z) :
  StronglySorted Z.lt xs -> StronglySorted Z.lt ys ->
  StronglySorted row_major
    (flat_map (fun y => map (fun x => (x, y)) xs) ys).
Proof.
  intros Sx. induction ys as [| y ys IH]; simpl; intros Sy; [constructor |].
  apply StronglySorted_inv in Sy. destruct Sy as [Sy Fy].
  apply StronglySorted_app.
  - clear - Sx. induction xs as [| x xs IHx]; simpl; [constructor |].
    apply StronglySorted_inv in Sx. destruct Sx as [Sx Fx].
    constructor; [now apply IHx |].
    apply Forall_forall. intros [x' y'] Hin. apply in_map_iff in Hin.
    destruct Hin as (x'' & E & Hin). inversion E; subst.
    rewrite Forall_forall in Fx. right. simpl. split; [reflexivity |].
    now apply Fx.
  - now apply IH.
  - intros [x1 y1] [x2 y2] H1 H2.
    apply in_map_iff in H1. destruct H1 as (? & E1 & _). inversion E1; subst.
    apply in_flat_map in H2. destruct H2 as (y' & Hy' & H2).
    apply in_map_iff in H2. destruct H2 as (? & E2 & _). inversion E2; subst.
    rewrite Forall_forall in Fy. left. simpl. now apply Fy.
Qed.

Lemma row_major_irrefl (a : Z * Z) : ~ row_major a a.
Proof. unfold row_major. lia. Qed.

Section Order.

Context {QgsGeometry : Type} `{GeometryEngine QgsGeometry}.

Lemma inside_candidates_sorted (s : Z) (g : QgsGeometry) :
  0 < s -> StronglySorted row_major (inside_candidates s g).
Proof.
  intros Hs. apply StronglySorted_filter.
  apply rows_sorted; now apply range_sorted.
Qed.

End Order.

Lemma range_length (start stop step : Z) :
  0 < step ->
  length (range start stop step)
  = Z.to_nat ((stop - start + step - 1) / step).
Proof.
  intros Hs. unfold range.
  assert (G : forall n a,
             (Z.to_nat (stop - a) <= n)%nat ->
             length (range_from n a stop step)
             = Z.to_nat ((stop - a + step - 1) / step)).
  { assert (Hnone : forall a, stop <= a ->
                      Z.to_nat ((stop - a + step - 1) / step) = O).
    { intros a Ha.
      assert ((stop - a + step - 1) / step < 1); [| lia].
      apply Z.div_lt_upper_bound; lia. }
    induction n as [| n IH]; intros a Hn; simpl.
    - rewrite Hnone by lia. reflexivity.
    - destruct (Z.ltb_spec a stop); [| now rewrite Hnone].
      simpl. rewrite IH by lia.
      replace (stop - a + step - 1) with (stop - (a + step) + step - 1
                                          + 1 * step) by lia.
      rewrite Z.div_add by lia.
      assert (0 <= (stop - (a + step) + step - 1) / step)
        by (apply Z.div_pos; lia).
      lia. }
  apply G. apply Nat.le_refl.
Qed.

Lemma emit_all_tags (c : Z) (pts : list (Z * Z)) (x y t : Z) :
  In (x, y, t) (map coordinates_and_tag (emit_all c pts))
  <-> In (x, y) pts
      /\ t = (if (x mod 100 =? 0) && (y mod 100 =? 0) then 100 else 50).
Proof.
  revert c. induction pts as [| [x' y'] pts IH]; simpl; intros c;
    [tauto |].
  rewrite IH. unfold coordinates_and_tag at 1. simpl. split.
  - intros [E | [Hin Ht]].
    + inversion E; subst. split; [now left | reflexivity].
    + split; [now right | assumption].
  - intros [[E | Hin] Ht].
    + inversion E; subst. now left.
    + right. now split.
Qed.

Lemma multiple_of_100_is_of_50 (x : Z) : x mod 100 = 0 -> x mod 50 = 0.
Proof.
  intros Hx. apply Z.mod_divide in Hx; [| lia]. destruct Hx as [k ->].
  replace (k * 100) with ((k * 2) * 50) by lia. apply Z.mod_mul. lia.
Qed.

(** * Further contract of the walk over one polygon *)

Section WalkContract.

Context {QgsGeometry : Type} `{GeometryEngine QgsGeometry}.

(** X1: with fuel for its bounding box, the double loop over a polygon does
    what the list reading of the walk says: it appends to the sink, in
    order and numbered from the counter, the candidates of the polygon
    that are within it, advances the counter by their number, and returns
    normally. *)
Theorem walk_appends_inside_candidates
    (fuel : nat) (grid50 : bool) (geom : QgsGeometry) (st : State) :
  let spacing := if grid50 then 50 else 100 in
  (fuel_for geom <= fuel)%nat ->
  process_feature fuel spacing geom st
  = (mkState (heap st) (calls st)
       (sink st ++ emit_all (count st) (inside_candidates spacing geom))
       (count st + Z.of_nat (length (inside_candidates spacing geom))),
     Returned tt).
Proof.
  intros spacing Hf.
  apply (process_feature_exact geom spacing (configured_spacing_pos grid50)
           fuel st Hf).
Qed.

(** X2: the walk over a polygon is complete within its truncated bounding
    box: a point is emitted if and only if both of its coordinates are
    multiples of the spacing, it lies from the truncated minima up to, but
    not at, the truncated maxima, and it is within the polygon. *)
Theorem walk_emits_exactly_inside_lattice
    (fuel : nat) (grid50 : bool) (geom : QgsGeometry) (st : State) :
  let spacing := if grid50 then 50 else 100 in
  (fuel_for geom <= fuel)%nat ->
  exists new,
    sink (fst (process_feature fuel spacing geom st)) = sink st ++ new
    /\ forall x y,
         In (x, y) (map coordinates new)
         <-> x mod spacing = 0 /\ y mod spacing = 0
             /\ x_min_of geom <= x < x_max_of geom
             /\ y_min_of geom <= y < y_max_of geom
             /\ within (mkPointXY x y) geom = true.
Proof.
  intros spacing Hf.
  pose proof (configured_spacing_pos grid50) as Hs.
  rewrite (process_feature_exact geom spacing Hs fuel st Hf).
  exists (emit_all (count st) (inside_candidates spacing geom)).
  split; [reflexivity |].
  intros x y. rewrite emit_all_coordinates.
  apply In_inside_candidates. exact Hs.
Qed.

(** X3: the points of one polygon are emitted in row-major order, by
    northing and within a row by easting, each strictly after the one
    before: no point is emitted twice. *)
Theorem walk_row_major_without_repeats
    (fuel : nat) (grid50 : bool) (geom : QgsGeometry) (st : State) :
  let spacing := if grid50 then 50 else 100 in
  (fuel_for geom <= fuel)%nat ->
  exists new,
    sink (fst (process_feature fuel spacing geom st)) = sink st ++ new
    /\ StronglySorted row_major (map coordinates new)
    /\ NoDup (map coordinates new).
Proof.
  intros spacing Hf.
  pose proof (configured_spacing_pos grid50) as Hs.
  rewrite (process_feature_exact geom spacing Hs fuel st Hf).
  exists (emit_all (count st) (inside_candidates spacing geom)).
  split; [reflexivity |]. rewrite emit_all_coordinates.
  pose proof (inside_candidates_sorted spacing geom Hs) as Hsorted.
  split; [exact Hsorted |].
  eapply StronglySorted_NoDup; [exact row_major_irrefl | exact Hsorted].
Qed.

(** X4: the 50 m walk refines the 100 m walk: the points a polygon yields
    at spacing 100 are exactly the points it yields at spacing 50 that
    carry the spacing attribute 100. *)
Theorem coarse_walk_is_tagged_part_of_fine_walk
    (fuel : nat) (geom : QgsGeometry) (st st' : State) :
  (fuel_for geom <= fuel)%nat ->
  exists fine coarse,
    sink (fst (process_feature fuel 50 geom st)) = sink st ++ fine
    /\ sink (fst (process_feature fuel 100 geom st')) = sink st' ++ coarse
    /\ forall x y,
         In (x, y) (map coordinates coarse)
         <-> In (x, y, 100) (map coordinates_and_tag fine).
Proof.
  intros Hf.
  rewrite (process_feature_exact geom 50 ltac:(lia) fuel st Hf).
  rewrite (process_feature_exact geom 100 ltac:(lia) fuel st' Hf).
  exists (emit_all (count st) (inside_candidates 50 geom)),
         (emit_all (count st') (inside_candidates 100 geom)).
  split; [reflexivity |]. split; [reflexivity |].
  intros x y. rewrite emit_all_coordinates, emit_all_tags.
  rewrite !In_inside_candidates by lia. split.
  - intros (Mx & My & Bx & By & W).
    split.
    + repeat split; try tauto; now apply multiple_of_100_is_of_50.
    + now rewrite Mx, My.
  - intros ((_ & _ & Bx & By & W) & T).
    destruct (Z.eqb_spec (x mod 100) 0) as [Mx | Mx];
      destruct (Z.eqb_spec (y mod 100) 0) as [My | My];
      simpl in T; try discriminate.
    repeat split; tauto.
Qed.

(** X5: a polygon yields at most as many points as its truncated bounding
    box has lattice columns times lattice rows. *)
Theorem walk_emits_at_most_the_grid
    (fuel : nat) (grid50 : bool) (geom : QgsGeometry) (st : State) :
  let spacing := if grid50 then 50 else 100 in
  (fuel_for geom <= fuel)%nat ->
  exists new,
    sink (fst (process_feature fuel spacing geom st)) = sink st ++ new
    /\ (length new
        <= Z.to_nat ((y_max_of geom - y_min_of geom + spacing - 1) / spacing)
           * Z.to_nat ((x_max_of geom - x_min_of geom + spacing - 1)
                       / spacing))%nat.
Proof.
  intros spacing Hf.
  pose proof (configured_spacing_pos grid50) as Hs.
  rewrite (process_feature_exact geom spacing Hs fuel st Hf).
  exists (emit_all (count st) (inside_candidates spacing geom)).
  split; [reflexivity |]. rewrite emit_all_length.
  unfold inside_candidates.
  eapply Nat.le_trans; [apply filter_length_le |].
  unfold candidates.
  rewrite flat_map_constant_length
    with (c := length (range (first_multiple (x_min_of geom) spacing)
                             (x_max_of geom) spacing))
    by (intros; apply length_map).
  rewrite !range_length by assumption.
  destruct (first_multiple_spec (x_min_of geom) spacing Hs) as (_ & Hx & _).
  destruct (first_multiple_spec (y_min_of geom) spacing Hs) as (_ & Hy & _).
  assert (Cx : (x_max_of geom - first_multiple (x_min_of geom) spacing
                + spacing - 1) / spacing
               <= (x_max_of geom - x_min_of geom + spacing - 1) / spacing)
    by (apply Z.div_le_mono; lia).
  assert (Cy : (y_max_of geom - first_multiple (y_min_of geom) spacing
                + spacing - 1) / spacing
               <= (y_max_of geom - y_min_of geom + spacing - 1) / spacing)
    by (apply Z.div_le_mono; lia).
  apply Nat.mul_le_mono; lia.
Qed.

End WalkContract.

(** * Further contract of the run *)

Section RunContract.

Context {QgsGeometry : Type} `{GeometryEngine QgsGeometry}.

Lemma for_features_exact (fuel : nat) (canceled : nat -> bool) (s : Z) :
  0 < s ->
  forall features current last st,
    Forall (fun g => (fuel_for g <= fuel)%nat) features ->
    exists r,
      for_features fuel canceled s features current last st
      = (push st (flat_map (inside_candidates s)
                    (reached canceled features current)),
         Returned r)
      /\ (features <> [] -> r <> None)
      /\ (features = [] -> r = last).
Proof.
  intros Hs. induction features as [| g rest IH]; simpl;
    intros current last st Hf.
  - exists last. rewrite push_nil. repeat split; congruence.
  - destruct (canceled current).
    + exists (Some current). simpl. rewrite push_nil.
      repeat split; congruence.
    + inversion Hf as [| ? ? Hg Hrest]; subst.
      unfold bind. rewrite (process_feature_exact g s Hs fuel st Hg).
      destruct (IH (S current) (Some current)
                   (push st (inside_candidates s g)) Hrest)
        as (r & Er & Hr & Hl).
      exists r. rewrite Er, push_push. simpl.
      split; [reflexivity |]. split; [| congruence].
      intros _. destruct rest as [| g' rest'].
      * rewrite Hl by reflexivity. discriminate.
      * apply Hr. discriminate.
Qed.

(** Until the first cancelled poll every feature is reached. *)
Lemma reached_firstn (canceled : nat -> bool) :
  forall (features : list QgsGeometry) (k current : nat),
    (k < length features)%nat ->
    (forall i, (i < k)%nat -> canceled (current + i)%nat = false) ->
    canceled (current + k)%nat = true ->
    reached canceled features current = firstn k features.
Proof.
  induction features as [| g rest IH]; simpl; intros k current Hk Hno Hyes;
    [lia |].
  destruct k as [| k].
  - rewrite Nat.add_0_r in Hyes. now rewrite Hyes.
  - rewrite <- (Nat.add_0_r current) at 1. rewrite (Hno O) by lia.
    simpl. f_equal. apply IH.
    + lia.
    + intros i Hi. replace (S current + i)%nat with (current + S i)%nat
        by lia. apply Hno. lia.
    + now replace (S current + k)%nat with (current + S k)%nat by lia.
Qed.

Lemma reached_all (features : list QgsGeometry) (current : nat) :
  reached (fun _ => false) features current = features.
Proof.
  revert current. induction features as [| g rest IH]; simpl; intros current;
    [reflexivity |].
  now rewrite IH.
Qed.

(** Neither loop raises. *)
Lemma while_x_no_raise (geom : QgsGeometry) (s end_x y : Z) :
  forall fuel x st e,
    snd (while_x fuel geom s end_x y x st) <> Raised e.
Proof.
  induction fuel as [| fuel IH]; simpl; intros x st e; [discriminate |].
  destruct (x <? end_x); [| discriminate].
  rewrite (bind_returned _ _ _ tt) by apply candidate_returns.
  apply IH.
Qed.

Lemma while_y_no_raise (geom : QgsGeometry) (s start_x end_x end_y : Z) :
  forall fuel y st e,
    snd (while_y fuel geom s start_x end_x end_y y st) <> Raised e.
Proof.
  induction fuel as [| fuel IH]; simpl; intros y st e; [discriminate |].
  destruct (y <? end_y); [| discriminate].
  destruct (bind_cases (while_x fuel geom s end_x y start_x)
              (fun _ => while_y fuel geom s start_x end_x end_y (y + s)) st)
    as [(a & _ & E) | (_ & _ & [(e' & E & _) | (_ & E)])].
  - rewrite E. apply IH.
  - exfalso. exact (while_x_no_raise geom s end_x y fuel start_x st e' E).
  - rewrite E. discriminate.
Qed.

Lemma process_feature_no_raise (geom : QgsGeometry) (s : Z) (fuel : nat)
    (st : State) (e : Exn) :
  0 < s -> snd (process_feature fuel s geom st) <> Raised e.
Proof.
  intros Hs. unfold process_feature.
  rewrite !roundup_pos by lia.
  unfold bind at 1, lift. simpl. unfold bind at 1, lift. simpl.
  apply while_y_no_raise.
Qed.

(** The loop over the features does not raise, and it leaves [current]
    unbound only when there is no feature; the state is then untouched. *)
Lemma for_features_ending (fuel : nat) (canceled : nat -> bool) (s : Z) :
  0 < s ->
  forall features current last st,
    match snd (for_features fuel canceled s features current last st) with
    | Raised _ => False
    | Returned None =>
        features = [] /\ last = None
        /\ fst (for_features fuel canceled s features current last st) = st
    | _ => True
    end.
Proof.
  intros Hs. induction features as [| g rest IH]; simpl;
    intros current last st.
  - destruct last; [exact I | repeat split].
  - destruct (canceled current); simpl; [exact I |].
    destruct (bind_cases (process_feature fuel s g)
                (fun _ => for_features fuel canceled s rest (S current)
                            (Some current)) st)
      as [(a & _ & E) | (_ & _ & [(e' & E & _) | (_ & E)])].
    + rewrite E.
      specialize (IH (S current) (Some current)
                     (fst (process_feature fuel s g st))).
      destruct (snd (for_features fuel canceled s rest (S current)
                       (Some current) (fst (process_feature fuel s g st))))
        as [[c |] | e |]; try exact I; try contradiction.
      destruct IH as (_ & Hl & _). discriminate.
    + exfalso. exact (process_feature_no_raise g s fuel st e' Hs E).
    + rewrite E. exact I.
Qed.

(** X6: a run whose source is reprojected to a layer with at least one
    feature, whose sink exists and which has fuel for every feature,
    returns the sink's id, and its sink holds, feature after feature in the
    order of the layer and up to the first cancelled poll, the inside
    candidates of each polygon, numbered from 1 without a break; the only
    host algorithm it ran is the reprojection. *)
Theorem run_samples_features_in_turn
    (fuel : nat) (host : Host QgsGeometry)
    (layer reproj : QgsVectorLayer QgsGeometry) (grid50 : bool)
    (dest_id : string) (h : Py.id) :
  let spacing := if grid50 then 50 else 100 in
  let points :=
    flat_map (inside_candidates spacing)
      (reached (isCanceled host) (getFeatures reproj) O) in
  reprojectlayer host layer = inr reproj ->
  getFeatures reproj <> [] ->
  Forall (fun g => (fuel_for g <= fuel)%nat) (getFeatures reproj) ->
  processAlgorithm fuel host
    (mkParameters (Some layer) grid50 (Some dest_id)) (init h)
  = (mkState (S (S (S h))) ["qgis:reprojectlayer"%string]
       (emit_all 1 points) (1 + Z.of_nat (length points)),
     Returned dest_id).
Proof.
  intros spacing points Hre Hne Hf.
  rewrite processAlgorithm_cases. simpl. rewrite Hre.
  destruct (for_features_exact fuel (isCanceled host) spacing
              (configured_spacing_pos grid50) (getFeatures reproj) O None
              (sampling_state (init h)) Hf) as (r & Er & Hr & _).
  unfold bind. fold spacing. rewrite Er.
  destruct r as [c |]; [reflexivity |].
  exfalso. now apply Hr.
Qed.

(** X7: cancellation takes effect between features and rolls nothing back:
    when [feedback.isCanceled()] first answers true at the poll of feature
    [k], the sink holds exactly what the first [k] features yield and the
    run still returns the sink's id. *)
Theorem cancellation_keeps_earlier_features
    (fuel : nat) (host : Host QgsGeometry)
    (layer reproj : QgsVectorLayer QgsGeometry) (grid50 : bool)
    (dest_id : string) (h : Py.id) (k : nat) :
  let spacing := if grid50 then 50 else 100 in
  let run := processAlgorithm fuel host
               (mkParameters (Some layer) grid50 (Some dest_id)) (init h) in
  reprojectlayer host layer = inr reproj ->
  Forall (fun g => (fuel_for g <= fuel)%nat) (getFeatures reproj) ->
  (k < length (getFeatures reproj))%nat ->
  (forall i, (i < k)%nat -> isCanceled host i = false) ->
  isCanceled host k = true ->
  sink (fst run)
  = emit_all 1 (flat_map (inside_candidates spacing)
                  (firstn k (getFeatures reproj)))
  /\ snd run = Returned dest_id.
Proof.
  intros spacing run Hre Hf Hk Hno Hyes. subst run.
  rewrite processAlgorithm_cases. simpl. rewrite Hre.
  destruct (for_features_exact fuel (isCanceled host) spacing
              (configured_spacing_pos grid50) (getFeatures reproj) O None
              (sampling_state (init h)) Hf) as (r & Er & Hr & _).
  unfold bind. fold spacing. rewrite Er.
  rewrite (reached_firstn (isCanceled host) (getFeatures reproj) k O Hk)
    by assumption.
  destruct r as [c |]; [split; reflexivity |].
  exfalso. apply Hr; [| reflexivity].
  intros E. rewrite E in Hk. simpl in Hk. lia.
Qed.

(** X8: a source whose reprojection has no feature makes the run end, after
    the sink was created, with an [UnboundLocalError]: the statement after
    the loop reads [current], which the loop never bound. *)
Theorem empty_layer_raises_UnboundLocalError
    (fuel : nat) (host : Host QgsGeometry)
    (layer reproj : QgsVectorLayer QgsGeometry) (grid50 : bool)
    (dest_id : string) (h : Py.id) :
  reprojectlayer host layer = inr reproj ->
  getFeatures reproj = [] ->
  processAlgorithm fuel host
    (mkParameters (Some layer) grid50 (Some dest_id)) (init h)
  = (mkState (S (S (S h))) ["qgis:reprojectlayer"%string] [] 1,
     Raised UnboundLocalError).
Proof.
  intros Hre Hempty.
  rewrite processAlgorithm_cases. simpl. rewrite Hre, Hempty. reflexivity.
Qed.

(** X9: a run that ends with an exception, whichever it is, has added
    nothing to the sink. *)
Theorem failed_run_emits_nothing
    (fuel : nat) (host : Host QgsGeometry)
    (parameters : Parameters QgsGeometry) (h : Py.id) (e : Exn) :
  snd (processAlgorithm fuel host parameters (init h)) = Raised e ->
  sink (fst (processAlgorithm fuel host parameters (init h))) = [].
Proof.
  rewrite processAlgorithm_cases.
  destruct (INPUT parameters) as [layer |]; simpl; [| reflexivity].
  destruct (reprojectlayer host layer) as [e' | reproj]; simpl;
    [reflexivity |].
  destruct (OUTPUT parameters) as [dest_id |]; simpl; [| reflexivity].
  pose proof (for_features_ending fuel (isCanceled host)
                (if GRID50 parameters then 50 else 100)
                (configured_spacing_pos (GRID50 parameters))
                (getFeatures reproj) O None (sampling_state (init h)))
    as Hend.
  unfold bind.
  destruct (for_features fuel (isCanceled host)
              (if GRID50 parameters then 50 else 100)
              (getFeatures reproj) O None (sampling_state (init h)))
    as [st' [[c |] | e' |]]; simpl in *; try discriminate.
  - intros _. destruct Hend as (_ & _ & ->). reflexivity.
  - contradiction.
Qed.

End RunContract.

Section RunEndings.

Context {QgsGeometry : Type} `{GeometryEngine QgsGeometry}.


End RunEndings.

(** X11: for a positive spacing [roundup] moves a value up by less than one
    spacing, leaves a value it returned unchanged, and keeps the order of
    values. *)
Theorem roundup_stable_monotone (a a' b : Z) :
  0 < b -> a <= a' ->
  exists r r',
    roundup a b = Returned r /\ roundup a' b = Returned r'
    /\ a <= r < a + b
    /\ roundup r b = Returned r
    /\ r <= r'.
Proof.
  intros Hb Hle.
  exists (first_multiple a b), (first_multiple a' b).
  rewrite !roundup_first_multiple by assumption.
  destruct (first_multiple_spec a b Hb) as (Hm & Hge & Hleast).
  destruct (first_multiple_spec a' b Hb) as (Hm' & Hge' & _).
  split; [reflexivity |]. split; [reflexivity |].
  split; [| split].
  - split; [assumption |].
    unfold first_multiple.
    pose proof (Z.mul_div_le (a + b - 1) b Hb). lia.
  - f_equal.
    destruct (first_multiple_spec (first_multiple a b) b Hb)
      as (_ & Hge2 & Hleast2).
    specialize (Hleast2 (first_multiple a b) Hm (Z.le_refl _)). lia.
  - apply Hleast; [assumption | lia].
Qed.

Lemma roundup_stable_monotone_witness :
  0 < 50 /\ 1234 <= 1260
  /\ exists r r',
       roundup 1234 50 = Returned r /\ roundup 1260 50 = Returned r'
       /\ 1234 <= r < 1234 + 50
       /\ roundup r 50 = Returned r
       /\ r <= r'.
Proof.
  split; [lia |]. split; [lia |].
  exact (roundup_stable_monotone 1234 1260 50 ltac:(lia) ltac:(lia)).
Defined.

(** * The feature, attribute by attribute *)

(** X12: every attribute the loop sets names a field that
    [generate_peat_layer] declared, so building the feature never fails
    with a [KeyError]; the feature has the fields of the peat layer, the
    point as geometry, [record_id], [easting], [northing] and [spacing] as
    the walk's record has them, and [date], [peat_depth], [main_con],
    [sub_con], [notes] and [photo] NULL. *)
Theorem make_feat_fills_declared_fields (x y count : Z) :
  exists feat,
    make_feat x y count = inr feat
    /\ fields feat = peat_fields
    /\ feature_geometry feat = Some (mkPointXY x y)
    /\ attribute "record_id" feat = inr (Some count)
    /\ attribute "easting" feat = inr (Some x)
    /\ attribute "northing" feat = inr (Some y)
    /\ attribute "spacing" feat
       = inr (Some (if (x mod 100 =? 0) && (y mod 100 =? 0)
                    then 100 else 50))
    /\ Forall (fun name => attribute name feat = inr None)
         ["date"; "peat_depth"; "main_con"; "sub_con"; "notes"; "photo"]%string
    /\ Forall (fun name =>
                 In (name, QVariantInt) peat_fields)
         ["spacing"; "record_id"; "easting"; "northing"]%string.
Proof.
  unfold make_feat.
  assert (Declared :
            Forall (fun name => In (name, QVariantInt) peat_fields)
              ["spacing"; "record_id"; "easting"; "northing"]%string).
  { repeat (apply Forall_cons || apply Forall_nil);
      unfold peat_fields;
      repeat (first [left; reflexivity | right]). }
  destruct ((x mod 100 =? 0) && (y mod 100 =? 0)).
  - exists (mkFeature peat_fields
              [Some count; Some x; Some y; None; Some 100; None; None; None;
               None; None]
              (Some (mkPointXY x y))).
    split; [reflexivity |]. split; [reflexivity |]. split; [reflexivity |].
    split; [reflexivity |]. split; [reflexivity |]. split; [reflexivity |].
    split; [reflexivity |].
    split; [| exact Declared].
    repeat (apply Forall_cons || apply Forall_nil); reflexivity.
  - exists (mkFeature peat_fields
              [Some count; Some x; Some y; None; Some 50; None; None; None;
               None; None]
              (Some (mkPointXY x y))).
    split; [reflexivity |]. split; [reflexivity |]. split; [reflexivity |].
    split; [reflexivity |]. split; [reflexivity |]. split; [reflexivity |].
    split; [reflexivity |].
    split; [| exact Declared].
    repeat (apply Forall_cons || apply Forall_nil); reflexivity.
Qed.

(** * PeatlandCodeAssessmentBase *)

Section Assessment.

Context {QgsGeometry : Type} `{GeometryEngine QgsGeometry}.

(** One turn of the reprojection loop, when the algorithm succeeds and
    when it fails. *)
Lemma reproject_non_peatland_step (host : Host QgsGeometry)
    (layer reproj : QgsVectorLayer QgsGeometry)
    (rest : list (QgsVectorLayer QgsGeometry)) (st : State) :
  reprojectlayer host layer = inr reproj ->
  reproject_non_peatland host (layer :: rest) st
  = bind (reproject_non_peatland host rest)
         (fun rest' => ret (reproj :: rest'))
         (after_reprojections 1 st).
Proof.
  intros Hre. rewrite reproject_non_peatland_cons.
  unfold run_reprojectlayer, bind at 1 2. simpl. rewrite Hre. reflexivity.
Qed.

Lemma reproject_non_peatland_fails (host : Host QgsGeometry)
    (layer : QgsVectorLayer QgsGeometry) (e : Exn)
    (rest : list (QgsVectorLayer QgsGeometry)) (st : State) :
  reprojectlayer host layer = inl e ->
  reproject_non_peatland host (layer :: rest) st
  = (after_reprojections 1 st, Raised e).
Proof.
  intros Hre. rewrite reproject_non_peatland_cons.
  unfold run_reprojectlayer, bind at 1 2. simpl. rewrite Hre. reflexivity.
Qed.

Lemma after_reprojections_S (n : nat) (st : State) :
  after_reprojections n (after_reprojections 1 st)
  = after_reprojections (S n) st.
Proof.
  unfold after_reprojections. simpl. rewrite <- app_assoc. simpl.
  f_equal. lia.
Qed.

Lemma reproject_non_peatland_exact (host : Host QgsGeometry) :
  forall layers reprojs st,
    reprojected host layers reprojs ->
    reproject_non_peatland host layers st
    = (after_reprojections (length layers) st, Returned reprojs).
Proof.
  intros layers reprojs st Hall. revert st. unfold reprojected in Hall.
  induction Hall as [| layer reproj layers reprojs Hre Hall IH]; intros st.
  - unfold after_reprojections. simpl. rewrite app_nil_r.
    destruct st; reflexivity.
  - rewrite (reproject_non_peatland_step host layer reproj layers st Hre).
    unfold bind. rewrite IH. unfold ret.
    rewrite after_reprojections_S. reflexivity.
Qed.

(** X13: the reprojection loop of [PeatlandCodeAssessmentBase] replaces
    every layer of the list, whatever its reference system, by what the
    reprojection algorithm returns for it, in order, running the algorithm
    once per layer. *)
Theorem non_peatland_layers_all_reprojected
    (host : Host QgsGeometry)
    (layers reprojs : list (QgsVectorLayer QgsGeometry)) (st : State) :
  reprojected host layers reprojs ->
  let run := reproject_non_peatland host layers st in
  snd run = Returned reprojs
  /\ calls (fst run)
     = calls st ++ repeat "qgis:reprojectlayer"%string (length layers)
  /\ sink (fst run) = sink st.
Proof.
  intros Hall. simpl.
  rewrite (reproject_non_peatland_exact host layers reprojs st Hall).
  repeat split.
Qed.

(** X14: the loop stops at the first layer whose reprojection fails: the
    exception of that layer ends it, and the layers after it are not
    handed to the algorithm. *)
Theorem non_peatland_reprojection_stops_at_failure
    (host : Host QgsGeometry)
    (before reprojs after : list (QgsVectorLayer QgsGeometry))
    (failing : QgsVectorLayer QgsGeometry) (e : Exn) (st : State) :
  reprojected host before reprojs ->
  reprojectlayer host failing = inl e ->
  let run := reproject_non_peatland host (before ++ failing :: after) st in
  snd run = Raised e
  /\ calls (fst run)
     = calls st ++ repeat "qgis:reprojectlayer"%string (S (length before)).
Proof.
  intros Hall Hfail. simpl.
  assert (G : reproject_non_peatland host (before ++ failing :: after) st
              = (after_reprojections (S (length before)) st, Raised e)).
  { revert st. unfold reprojected in Hall.
    induction Hall as [| layer reproj layers reprojs Hre Hall IH]; intros st.
    - apply reproject_non_peatland_fails. exact Hfail.
    - simpl app.
      rewrite (reproject_non_peatland_step host layer reproj _ st Hre).
      unfold bind. rewrite IH. rewrite after_reprojections_S. reflexivity. }
  rewrite G. split; reflexivity.
Qed.

(** The loop never writes to the sink or the counter. *)
Lemma reproject_non_peatland_silent (host : Host QgsGeometry) :
  forall layers st,
    sink (fst (reproject_non_peatland host layers st)) = sink st
    /\ count (fst (reproject_non_peatland host layers st)) = count st.
Proof.
  induction layers as [| layer rest IH]; intros st; [split; reflexivity |].
  destruct (reprojectlayer host layer) as [e | reproj] eqn:Hre.
  - rewrite (reproject_non_peatland_fails host layer e rest st Hre).
    split; reflexivity.
  - rewrite (reproject_non_peatland_step host layer reproj rest st Hre).
    unfold bind.
    destruct (IH (after_reprojections 1 st)) as [E1 E2].
    destruct (reproject_non_peatland host rest (after_reprojections 1 st))
      as [st' [rs | e |]]; simpl in *; split; assumption.
Qed.

Lemma buffer_water_course_exact
    (host : PeatlandCodeAssessmentBase.HostAlgorithms QgsGeometry)
    (water : option (QgsVectorLayer QgsGeometry)) (st : State) :
  PeatlandCodeAssessmentBase.buffer_water_course host water st
  = match water with
    | None => (st, Returned None)
    | Some w =>
        (mkState (heap st) (calls st ++ ["native:buffer"%string]) (sink st)
                 (count st),
         match PeatlandCodeAssessmentBase.buffer host w with
         | inl e => Raised e
         | inr b => Returned (Some b)
         end)
    end.
Proof.
  destruct water as [w |]; [| reflexivity].
  unfold PeatlandCodeAssessmentBase.buffer_water_course,
    PeatlandCodeAssessmentBase.run_buffer, bind, log_call, raise, ret.
  destruct (PeatlandCodeAssessmentBase.buffer host w); reflexivity.
Qed.

Lemma merge_non_peatland_exact
    (host : PeatlandCodeAssessmentBase.HostAlgorithms QgsGeometry)
    (layers : list (QgsVectorLayer QgsGeometry)) (st : State) :
  PeatlandCodeAssessmentBase.merge_non_peatland host layers st
  = match layers with
    | [] => (st, Returned (inl IndexError))
    | [layer] => (st, Returned (inr layer))
    | _ =>
        (mkState (heap st) (calls st ++ ["qgis:mergevectorlayers"%string])
                 (sink st) (count st),
         match PeatlandCodeAssessmentBase.mergevectorlayers host layers with
         | inl e => Raised e
         | inr merged => Returned (inr merged)
         end)
    end.
Proof.
  destruct layers as [| l1 [| l2 rest]]; try reflexivity.
  unfold PeatlandCodeAssessmentBase.merge_non_peatland,
    PeatlandCodeAssessmentBase.run_mergevectorlayers, bind, log_call, raise,
    ret. simpl.
  destruct (PeatlandCodeAssessmentBase.mergevectorlayers host
              (l1 :: l2 :: rest)); reflexivity.
Qed.

(** [processAlgorithm] once the source is a layer and the sink resolved. *)
Lemma assessment_cases
    (host : PeatlandCodeAssessmentBase.HostAlgorithms QgsGeometry)
    (source : QgsVectorLayer QgsGeometry)
    (layers : list (QgsVectorLayer QgsGeometry))
    (water : option (QgsVectorLayer QgsGeometry))
    (dest_id : option string) (st : State) :
  PeatlandCodeAssessmentBase.processAlgorithm host
    (PeatlandCodeAssessmentBase.mkParameters
       (Some source) layers water (inr dest_id)) st
  = bind (reproject_non_peatland
            (PeatlandCodeAssessmentBase.peat_host host) layers)
      (fun reprojs =>
         PeatlandCodeAssessmentBase.buffer_water_course host water ;;
         merged <- PeatlandCodeAssessmentBase.merge_non_peatland
                     host reprojs ;;
         match merged with
         | inl e => ret (inl e)
         | inr _ => ret (inr tt)
         end)
      (mkState (S (heap st)) (calls st) (sink st) (count st)).
Proof. reflexivity. Qed.


(** X16: without a non-peatland layer [PeatlandCodeAssessmentBase] cannot
    end well: once the sink is resolved and the water course, if given, is
    buffered, [non_peatland_layers[0]] is an [IndexError]. *)
Theorem assessment_without_layers_raises_IndexError
    (host : PeatlandCodeAssessmentBase.HostAlgorithms QgsGeometry)
    (source : QgsVectorLayer QgsGeometry)
    (water : option (QgsVectorLayer QgsGeometry))
    (dest_id : option string) (st : State) :
  snd (PeatlandCodeAssessmentBase.processAlgorithm host
         (PeatlandCodeAssessmentBase.mkParameters
            (Some source) [] water (inr dest_id)) st)
  = match water with
    | None => Returned (inl IndexError)
    | Some w =>
        match PeatlandCodeAssessmentBase.buffer host w with
        | inl e => Raised e
        | inr _ => Returned (inl IndexError)
        end
    end.
Proof.
  rewrite assessment_cases. unfold bind at 1. simpl.
  unfold bind at 1. rewrite buffer_water_course_exact.
  destruct water as [w |]; [| reflexivity].
  destruct (PeatlandCodeAssessmentBase.buffer host w); reflexivity.
Qed.

(** X17: whatever the parameters and the host, and however it ends,
    [PeatlandCodeAssessmentBase] adds nothing to a sink; when the source is
    [None] it ends with an [AttributeError] before any host algorithm has
    run. *)
Theorem assessment_never_writes
    (host : PeatlandCodeAssessmentBase.HostAlgorithms QgsGeometry)
    (parameters : PeatlandCodeAssessmentBase.Parameters QgsGeometry)
    (st : State) :
  let run := PeatlandCodeAssessmentBase.processAlgorithm host parameters st in
  sink (fst run) = sink st
  /\ (PeatlandCodeAssessmentBase.INPUT parameters = None ->
      run = (st, Raised AttributeError)).
Proof.
  intros run.
  destruct parameters as [[source |] layers water [e | dest_id]];
    subst run; simpl;
    try (split; [reflexivity | reflexivity || discriminate]).
  split; [| discriminate].
  assert (Hstep :
            forall rs st0,
              sink (fst (bind (PeatlandCodeAssessmentBase.merge_non_peatland
                                 host rs)
                           (fun merged =>
                              match merged with
                              | inl e => ret (inl e)
                              | inr _ => ret (inr tt)
                              end) st0))
              = sink st0).
  { intros rs st0. unfold bind. rewrite merge_non_peatland_exact.
    destruct rs as [| r1 [| r2 rest]]; try reflexivity.
    destruct (PeatlandCodeAssessmentBase.mergevectorlayers host
                (r1 :: r2 :: rest)); reflexivity. }
  rewrite assessment_cases. unfold bind at 1.
  match goal with
  | |- context [reproject_non_peatland ?h ?l ?s] =>
      destruct (reproject_non_peatland_silent h l s) as [E _];
      destruct (reproject_non_peatland h l s) as [st1 [rs | e |]]
  end; simpl in *; try assumption.
  unfold bind at 1. rewrite buffer_water_course_exact.
  destruct water as [w |].
  - destruct (PeatlandCodeAssessmentBase.buffer host w); simpl;
      [assumption |].
    rewrite Hstep. simpl. assumption.
  - rewrite Hstep. assumption.
Qed.

End Assessment.

(** * Instances of the properties above *)

Lemma square150_fuel : (fuel_for square150 <= 302)%nat.
Proof. vm_compute. lia. Qed.

Lemma segment_fuel : (fuel_for segment <= 302)%nat.
Proof. vm_compute. lia. Qed.

Lemma walk_appends_inside_candidates_witness :
  (fuel_for square150 <= 302)%nat
  /\ process_feature 302 50 square150 (loop_start O)
     = (mkState O []
          (emit_all 1 (inside_candidates 50 square150))
          (1 + Z.of_nat (length (inside_candidates 50 square150))),
        Returned tt).
Proof.
  split; [exact square150_fuel |].
  exact (walk_appends_inside_candidates 302 true square150 (loop_start O)
           square150_fuel).
Defined.

Lemma walk_emits_exactly_inside_lattice_witness :
  (fuel_for square150 <= 302)%nat
  /\ exists new,
       sink (fst (process_feature 302 50 square150 (loop_start O))) = new
       /\ forall x y,
            In (x, y) (map coordinates new)
            <-> x mod 50 = 0 /\ y mod 50 = 0
                /\ x_min_of square150 <= x < x_max_of square150
                /\ y_min_of square150 <= y < y_max_of square150
                /\ within (mkPointXY x y) square150 = true.
Proof.
  split; [exact square150_fuel |].
  exact (walk_emits_exactly_inside_lattice 302 true square150 (loop_start O)
           square150_fuel).
Defined.

Lemma walk_row_major_without_repeats_witness :
  (fuel_for square150 <= 302)%nat
  /\ exists new,
       sink (fst (process_feature 302 50 square150 (loop_start O))) = new
       /\ StronglySorted row_major (map coordinates new)
       /\ NoDup (map coordinates new).
Proof.
  split; [exact square150_fuel |].
  exact (walk_row_major_without_repeats 302 true square150 (loop_start O)
           square150_fuel).
Defined.

Lemma coarse_walk_is_tagged_part_of_fine_walk_witness :
  (fuel_for square150 <= 302)%nat
  /\ exists fine coarse,
       sink (fst (process_feature 302 50 square150 (loop_start O))) = fine
       /\ sink (fst (process_feature 302 100 square150 (loop_start O)))
          = coarse
       /\ forall x y,
            In (x, y) (map coordinates coarse)
            <-> In (x, y, 100) (map coordinates_and_tag fine).
Proof.
  split; [exact square150_fuel |].
  exact (coarse_walk_is_tagged_part_of_fine_walk 302 square150
           (loop_start O) (loop_start O) square150_fuel).
Defined.

Lemma walk_emits_at_most_the_grid_witness :
  (fuel_for square150 <= 302)%nat
  /\ exists new,
       sink (fst (process_feature 302 50 square150 (loop_start O))) = new
       /\ (length new <= 3 * 3)%nat.
Proof.
  split; [exact square150_fuel |].
  exact (walk_emits_at_most_the_grid 302 true square150 (loop_start O)
           square150_fuel).
Defined.


Lemma run_samples_features_in_turn_witness :
  let layer := mkLayer 4326 [square150; segment; square150] in
  let reproj := mkLayer 27700 [square150; segment; square150] in
  reprojectlayer copy_host layer = inr reproj
  /\ getFeatures reproj <> []
  /\ Forall (fun g => (fuel_for g <= 302)%nat) (getFeatures reproj)
  /\ processAlgorithm 302 copy_host
       (mkParameters (Some layer) true (Some "out"%string)) (init O)
     = (mkState 3%nat ["qgis:reprojectlayer"%string]
          (emit_all 1 (inside_candidates 50 square150
                       ++ inside_candidates 50 square150))
          9,
        Returned "out"%string).
Proof.
  intros layer reproj.
  assert (Hre : reprojectlayer copy_host layer = inr reproj)
    by reflexivity.
  assert (Hne : getFeatures reproj <> []) by (simpl; discriminate).
  assert (Hf : Forall (fun g => (fuel_for g <= 302)%nat)
                 (getFeatures reproj)).
  { simpl. repeat constructor;
      first [exact square150_fuel | exact segment_fuel]. }
  split; [exact Hre |]. split; [exact Hne |]. split; [exact Hf |].
  exact (run_samples_features_in_turn 302 copy_host layer reproj true
           "out"%string O Hre Hne Hf).
Defined.

Lemma cancellation_keeps_earlier_features_witness :
  let layer := mkLayer 4326 [square150; segment; square150] in
  let reproj := mkLayer 27700 [square150; segment; square150] in
  let run := processAlgorithm 302 cancelling_host
               (mkParameters (Some layer) true (Some "out"%string))
               (init O) in
  reprojectlayer cancelling_host layer = inr reproj
  /\ (1 < length (getFeatures reproj))%nat
  /\ isCanceled cancelling_host 1 = true
  /\ sink (fst run) = emit_all 1 (inside_candidates 50 square150 ++ [])
  /\ snd run = Returned "out"%string.
Proof.
  intros layer reproj run.
  assert (Hre : reprojectlayer cancelling_host layer = inr reproj)
    by reflexivity.
  assert (Hf : Forall (fun g => (fuel_for g <= 302)%nat)
                 (getFeatures reproj)).
  { simpl. repeat constructor;
      first [exact square150_fuel | exact segment_fuel]. }
  assert (Hk : (1 < length (getFeatures reproj))%nat) by (simpl; lia).
  assert (Hno : forall i, (i < 1)%nat -> isCanceled cancelling_host i = false).
  { intros i Hi. destruct i as [| i]; [reflexivity | lia]. }
  assert (Hyes : isCanceled cancelling_host 1 = true) by reflexivity.
  split; [exact Hre |]. split; [exact Hk |]. split; [exact Hyes |].
  exact (cancellation_keeps_earlier_features 302 cancelling_host layer
           reproj true "out"%string O 1 Hre Hf Hk Hno Hyes).
Defined.

Lemma empty_layer_raises_UnboundLocalError_witness :
  reprojectlayer copy_host (mkLayer 4326 []) = inr (mkLayer 27700 [])
  /\ getFeatures (mkLayer (QgsGeometry := Box) 27700 []) = []
  /\ processAlgorithm 302 copy_host
       (mkParameters (Some (mkLayer 4326 [])) false (Some "out"%string))
       (init O)
     = (mkState 3%nat ["qgis:reprojectlayer"%string] [] 1,
        Raised UnboundLocalError).
Proof.
  split; [reflexivity |]. split; [reflexivity |].
  exact (empty_layer_raises_UnboundLocalError 302 copy_host
           (mkLayer 4326 []) (mkLayer 27700 []) false "out"%string O
           eq_refl eq_refl).
Defined.

Lemma failed_run_emits_nothing_witness :
  let parameters :=
    mkParameters (Some (mkLayer 27700 [square150])) true
                 (Some "out"%string) in
  snd (processAlgorithm 302 failing_host parameters (init O))
  = Raised (QgsProcessingException "reprojection failed")
  /\ sink (fst (processAlgorithm 302 failing_host parameters (init O))) = [].
Proof.
  intros parameters.
  assert (Hfail : snd (processAlgorithm 302 failing_host parameters (init O))
                  = Raised (QgsProcessingException "reprojection failed"))
    by (vm_compute; reflexivity).
  split; [exact Hfail |].
  exact (failed_run_emits_nothing 302 failing_host parameters O _ Hfail).
Defined.

Lemma non_peatland_layers_all_reprojected_witness :
  let layers := [mkLayer 27700 [square150]; mkLayer 4326 [segment]] in
  let reprojs := [mkLayer 27700 [square150]; mkLayer 27700 [segment]] in
  let run := reproject_non_peatland copy_host layers (init O) in
  Forall2 (fun layer reproj => reprojectlayer copy_host layer = inr reproj)
          layers reprojs
  /\ snd run = Returned reprojs
  /\ calls (fst run)
     = ["qgis:reprojectlayer"%string; "qgis:reprojectlayer"%string]
  /\ sink (fst run) = [].
Proof.
  intros layers reprojs run.
  assert (Hall : Forall2
                   (fun layer reproj =>
                      reprojectlayer copy_host layer = inr reproj)
                   layers reprojs) by (repeat constructor).
  split; [exact Hall |].
  exact (non_peatland_layers_all_reprojected copy_host layers reprojs
           (init O) Hall).
Defined.

Lemma non_peatland_reprojection_stops_at_failure_witness :
  let before := [mkLayer 27700 [square150]] in
  let failing := mkLayer (QgsGeometry := Box) 4326 [] in
  let after := [mkLayer 4326 [segment]] in
  let run := reproject_non_peatland strict_host
               (before ++ failing :: after) (init O) in
  Forall2 (fun layer reproj => reprojectlayer strict_host layer = inr reproj)
          before [mkLayer 27700 [square150]]
  /\ reprojectlayer strict_host failing
     = inl (QgsProcessingException "no features")
  /\ snd run = Raised (QgsProcessingException "no features")
  /\ calls (fst run)
     = ["qgis:reprojectlayer"%string; "qgis:reprojectlayer"%string].
Proof.
  intros before failing after run.
  assert (Hall : Forall2
                   (fun layer reproj =>
                      reprojectlayer strict_host layer = inr reproj)
                   before [mkLayer 27700 [square150]])
    by (repeat constructor).
  split; [exact Hall |]. split; [reflexivity |].
  exact (non_peatland_reprojection_stops_at_failure strict_host before
           [mkLayer 27700 [square150]] after failing _ (init O) Hall
           eq_refl).
Defined.

